(** * datasubst: the template rendering pipeline

    A shallow embedding of [main.go] (the revision with [--subtree] and
    [--delimiters]) and of the parts of the Go libraries it calls, followed by
    the properties of the pipeline.

    Go strings are byte sequences: they are modelled by [string], whose
    characters are the bytes.  A Go [map] is a [gmap]; [interface{}] is the
    tagged union [Value], one constructor per dynamic type the program can
    meet. *)

From Stdlib Require Import ZArith Ascii String List Lia Floats.SpecFloat.
From stdpp Require Import gmap strings list fin_maps.

(** ** Package [strings] *)

Module GoStrings.

(** [strings.HasPrefix(s, prefix)]. *)
Fixpoint HasPrefix (s prefix : string) : bool :=
  match prefix, s with
  | EmptyString, _ => true
  | String _ _, EmptyString => false
  | String p prefix', String c s' =>
      if Ascii.eqb c p then HasPrefix s' prefix' else false
  end.

(** [strings.Index(s, substr)]; Go's [-1] is [None]. *)
Fixpoint Index (s substr : string) : option nat :=
  if HasPrefix s substr then Some 0
  else match s with
       | EmptyString => None
       | String _ s' => S <$> Index s' substr
       end.

(** The slices [s[:n]] and [s[n:]], for [n] within the string. *)
Fixpoint slice_to (n : nat) (s : string) : string :=
  match n, s with
  | S n', String c s' => String c (slice_to n' s')
  | _, _ => EmptyString
  end.

Fixpoint slice_from (n : nat) (s : string) : string :=
  match n, s with
  | S n', String _ s' => slice_from n' s'
  | _, _ => s
  end.

(** [bytealg.CountString(s, c)]: the occurrences of one byte. *)
Fixpoint CountByte (s : string) (c : ascii) : nat :=
  match s with
  | EmptyString => 0
  | String a s' => (if Ascii.eqb a c then 1 else 0) + CountByte s' c
  end.

(** The loop of [strings.Count] for a separator of two bytes or more:
    non-overlapping occurrences, found from the left.  [fuel] bounds the
    iterations; the length of [s] is enough. *)
Fixpoint countLoop (fuel : nat) (s substr : string) : nat :=
  match fuel with
  | 0 => 0
  | S fuel' =>
      match Index s substr with
      | None => 0
      | Some i => S (countLoop fuel' (slice_from (i + String.length substr) s) substr)
      end
  end.

(** [strings.Count(s, substr)].  Go treats the empty separator apart (it
    counts UTF-8 sequences); the program never passes it, and the model
    counts bytes there. *)
Definition Count (s substr : string) : nat :=
  match substr with
  | EmptyString => S (String.length s)
  | String c EmptyString => CountByte s c
  | _ => countLoop (String.length s) s substr
  end.

(** The loop of [strings.genSplit] with [sepSave = 0]: [n] is the number
    of cuts still to make. *)
Fixpoint genSplit (n : nat) (s sep : string) : list string :=
  match n with
  | 0 => [s]
  | S n' =>
      match Index s sep with
      | None => [s]
      | Some m => slice_to m s :: genSplit n' (slice_from (m + String.length sep) s) sep
      end
  end.

(** [strings.Split(s, sep)] for a non-empty [sep]:
    [genSplit(s, sep, 0, -1)], where [n] becomes [Count(s, sep) + 1] and
    the loop makes [n - 1] cuts. *)
Definition Split (s sep : string) : list string :=
  genSplit (Count s sep) s sep.

End GoStrings.

Import GoStrings.

(** ** The value model *)

(** The dynamic types an [interface{}] holds in this program: what
    [encoding/json] and [yaml.v3] store when they decode into an
    [interface{}], and the [map[string]string] that [parseEnv] builds.
    [VNil] is the nil interface.  A [float64] is given by its IEEE 754
    binary64 datum. *)
#[warnings="-register-all"]
Inductive Value : Type :=
| VNil
| VBool (b : bool)
| VInt (n : Z)
| VUint64 (n : Z)
| VFloat64 (x : spec_float)
| VString (s : string)
| VSlice (l : list Value)
| VMap (m : gmap string Value)
| VMapString (m : gmap string string).

(** [float64(n)] for an integer [n]: rounding to nearest, ties to even. *)
Definition float64_of_Z (n : Z) : spec_float := binary_normalize 53 1024 n 0 false.

(** A run of Go code either returns or stops the program with a run-time
    panic. *)
Inductive RuntimeError : Type :=
| InterfaceConversion   (* a failed one-result type assertion *)
| IndexOutOfRange
| UnrecognizedOption.

Inductive Run (A : Type) : Type :=
| Ret (a : A)
| Panic (e : RuntimeError).
Arguments Ret {A} a.
Arguments Panic {A} e.

Definition bindRun {A B : Type} (m : Run A) (k : A -> Run B) : Run B :=
  match m with
  | Ret a => k a
  | Panic e => Panic e
  end.

(** ** Package-level variables and the process environment *)

(** The variables of lines 44-47, as [flag.Parse] leaves them.  The parsing
    of the command line itself belongs to package [flag]. *)
Record Flags : Type := {
  inputFile : string;
  outputFile : string;
  jsonDataFile : string;
  yamlDataFile : string;
  delimiters : string;
  subtree : string;
  envFlag : bool;
  strictFlag : bool;
  helpFlag : bool;
  versionFlag : bool
}.

(** The flags with one variable set otherwise. *)
Definition setSubtree (g : Flags) (path : string) : Flags :=
  {| inputFile := inputFile g; outputFile := outputFile g;
     jsonDataFile := jsonDataFile g; yamlDataFile := yamlDataFile g;
     delimiters := delimiters g; subtree := path;
     envFlag := envFlag g; strictFlag := strictFlag g;
     helpFlag := helpFlag g; versionFlag := versionFlag g |}.

Definition setDelimiters (g : Flags) (spec : string) : Flags :=
  {| inputFile := inputFile g; outputFile := outputFile g;
     jsonDataFile := jsonDataFile g; yamlDataFile := yamlDataFile g;
     delimiters := spec; subtree := subtree g;
     envFlag := envFlag g; strictFlag := strictFlag g;
     helpFlag := helpFlag g; versionFlag := versionFlag g |}.

Definition setOutputFile (g : Flags) (path : string) : Flags :=
  {| inputFile := inputFile g; outputFile := path;
     jsonDataFile := jsonDataFile g; yamlDataFile := yamlDataFile g;
     delimiters := delimiters g; subtree := subtree g;
     envFlag := envFlag g; strictFlag := strictFlag g;
     helpFlag := helpFlag g; versionFlag := versionFlag g |}.

Definition setStrict (g : Flags) (strict : bool) : Flags :=
  {| inputFile := inputFile g; outputFile := outputFile g;
     jsonDataFile := jsonDataFile g; yamlDataFile := yamlDataFile g;
     delimiters := delimiters g; subtree := subtree g;
     envFlag := envFlag g; strictFlag := strict;
     helpFlag := helpFlag g; versionFlag := versionFlag g |}.

(** The syntax tree of a JSON or YAML document.  The two grammars belong to
    the decoding libraries and are not modelled: a document is given by the
    tree its text denotes.  A number written without fraction and exponent
    is [DInt], taken within the range of a [float64]; any other number is
    given by the [float64] that [strconv.ParseFloat] reads from it.  An
    object keeps its members in source order, duplicates included; its keys
    are strings. *)
#[warnings="-register-all"]
Inductive Doc : Type :=
| DNull
| DBool (b : bool)
| DInt (n : Z)
| DFloat (x : spec_float)
| DString (s : string)
| DSeq (items : list Doc)
| DObject (members : list (string * Doc)).

(** A file as the program can observe it: the bytes [ioutil.ReadAll]
    returns ([None] when reading fails), and the document each decoder reads
    from those bytes ([None] when [Decode] returns an error). *)
Record File : Type := {
  bytes : option string;
  json : option Doc;
  yaml : option Doc
}.

(** What [main] reads from the operating system.  [Open] is keyed by the
    file a path names, so that [filepath.Clean], which returns an equivalent
    path, is the identity on it.  [Environ] is any list of strings: that
    [os.Environ()] returns no empty entry and no second entry of a name is
    a hypothesis of the statements that need it. *)
Record World : Type := {
  Stdin : File;
  Environ : list string;
  Open : string -> option File;
  Create : string -> bool
}.

Inductive error : Type :=
| ErrOpen (path : string)
| ErrRead
| ErrDecode
| ErrCreate (path : string).

(** ** Loading the data (lines 119-163) *)

(** The loop of [getSubTree]: [data.(map[string]interface{})] panics on any
    other dynamic type, the nil interface included; [v[k]] is the nil
    interface when [k] is absent. *)
Fixpoint getSubTree_loop (st : list string) (data : Value) : Run Value :=
  match st with
  | [] => Ret data
  | k :: st' =>
      match data with
      | VMap v => getSubTree_loop st' (default VNil (v !! k))
      | _ => Panic InterfaceConversion
      end
  end.

(** Line 120: [strings.Split(subtree, ".")[1:]]. *)
Definition pathSegments (subtree : string) : list string :=
  tail (Split subtree ".").

(** [getSubTree(data, substree)].  The body splits the package-level
    [subtree], not its parameter [substree]. *)
Definition getSubTree (g : Flags) (data : Value) (substree : string) : Run Value :=
  let st := pathSegments (subtree g) in
  getSubTree_loop st data.

(** What [json.Decoder.Decode] stores in an [interface{}]: every number is a
    [float64], an object is a [map[string]interface{}] in which a repeated
    key keeps its last value. *)
Fixpoint jsonValue (d : Doc) : Value :=
  match d with
  | DNull => VNil
  | DBool b => VBool b
  | DInt n => VFloat64 (float64_of_Z n)
  | DFloat x => VFloat64 x
  | DString s => VString s
  | DSeq items => VSlice (map jsonValue items)
  | DObject members =>
      VMap (fold_left (fun m kv => let '(k, d') := kv in <[k := jsonValue d']> m) members ∅)
  end.

Definition int64_min : Z := - 2 ^ 63.
Definition int64_max : Z := 2 ^ 63 - 1.
Definition uint64_max : Z := 2 ^ 64 - 1.

(** What [yaml.v3] resolves an integer to: an [int] when it fits (64 bits),
    a [uint64] when that fits, a [float64] otherwise. *)
Definition yamlInt (n : Z) : Value :=
  if (int64_min <=? n)%Z && (n <=? int64_max)%Z then VInt n
  else if (0 <=? n)%Z && (n <=? uint64_max)%Z then VUint64 n
  else VFloat64 (float64_of_Z n).

(** What [yaml.Decoder.Decode] stores in an [interface{}]; [None] when it
    returns an error, as it does for a mapping that repeats a key. *)
Fixpoint yamlValue (d : Doc) : option Value :=
  match d with
  | DNull => Some VNil
  | DBool b => Some (VBool b)
  | DInt n => Some (yamlInt n)
  | DFloat x => Some (VFloat64 x)
  | DString s => Some (VString s)
  | DSeq items =>
      VSlice <$> (fix seq (l : list Doc) : option (list Value) :=
                    match l with
                    | [] => Some []
                    | d' :: l' =>
                        match yamlValue d', seq l' with
                        | Some v, Some vs => Some (v :: vs)
                        | _, _ => None
                        end
                    end) items
  | DObject members =>
      VMap <$> (fix mapping (l : list (string * Doc)) (m : gmap string Value)
                  : option (gmap string Value) :=
                  match l with
                  | [] => Some m
                  | (k, d') :: l' =>
                      match m !! k, yamlValue d' with
                      | None, Some v => mapping l' (<[k := v]> m)
                      | _, _ => None
                      end
                  end) members ∅
  end.

(** The local loops of [yamlValue], by name. *)
Fixpoint yamlSeq (l : list Doc) : option (list Value) :=
  match l with
  | [] => Some []
  | d' :: l' =>
      match yamlValue d', yamlSeq l' with
      | Some v, Some vs => Some (v :: vs)
      | _, _ => None
      end
  end.

Fixpoint yamlMapping (l : list (string * Doc)) (m : gmap string Value)
  : option (gmap string Value) :=
  match l with
  | [] => Some m
  | (k, d') :: l' =>
      match m !! k, yamlValue d' with
      | None, Some v => yamlMapping l' (<[k := v]> m)
      | _, _ => None
      end
  end.

(** [parseYAML], [parseJSON]: open, decode, return [(data, err)]. *)
Definition parseYAML (os : World) (yamlDataFile : string) : Value * option error :=
  match Open os yamlDataFile with
  | None => (VNil, Some (ErrOpen yamlDataFile))
  | Some dataFile =>
      match yaml dataFile ≫= yamlValue with
      | None => (VNil, Some ErrDecode)
      | Some data => (data, None)
      end
  end.

Definition parseJSON (os : World) (jsonDataFile : string) : Value * option error :=
  match Open os jsonDataFile with
  | None => (VNil, Some (ErrOpen jsonDataFile))
  | Some dataFile =>
      match json dataFile with
      | None => (VNil, Some ErrDecode)
      | Some d => (jsonValue d, None)
      end
  end.

(** The loop of [parseEnv]: [data[envKv[0]] = envKv[1]] for every entry;
    [envKv[1]] is out of range for an entry without [=]. *)
Fixpoint parseEnv_loop (environ : list string) (data : gmap string string)
  : Run (gmap string string) :=
  match environ with
  | [] => Ret data
  | v :: environ' =>
      let envKv := Split v "=" in
      match envKv !! 0%nat, envKv !! 1%nat with
      | Some name, Some value => parseEnv_loop environ' (<[name := value]> data)
      | _, _ => Panic IndexOutOfRange
      end
  end.

Definition parseEnv (os : World) : Run (Value * option error) :=
  bindRun (parseEnv_loop (Environ os) ∅) (fun data =>
  Ret (VMapString data, None)).

(** [countTrue]. *)
Fixpoint countTrue (b : list bool) : nat :=
  match b with
  | [] => 0
  | v :: b' => (if v then 1 else 0) + countTrue b'
  end.

(** ** Package [text/template]

    The engine is the Go standard library's.  The model covers the templates
    made of literal text and of actions that are one chain of fields,
    [{{ .a.b }}]; [Parse] answers [NotCovered] for any other action, so that
    nothing is claimed about the rest of the template language. *)

Module template.

Inductive missingKeyAction : Type :=
| mapInvalid     (* missingkey=default, missingkey=invalid *)
| mapZeroValue   (* missingkey=zero *)
| mapError.      (* missingkey=error *)

(** [parse.TextNode], and [parse.ActionNode] for a pipeline that is a
    single [parse.FieldNode]; the chain [Ident] is never empty. *)
Inductive Node : Type :=
| TextNode (text : string)
| ActionNode (field : string) (more : list string).

Record Template : Type := {
  leftDelim : string;
  rightDelim : string;
  missingKey : missingKeyAction;
  Tree : option (list Node)
}.

(** [template.New(name)]; the name plays no part below. *)
Definition New (name : string) : Template :=
  {| leftDelim := ""; rightDelim := ""; missingKey := mapInvalid; Tree := None |}.

(** [Template.Option]: panics on an option it does not know. *)
Definition Option (t : Template) (opt : string) : Run Template :=
  let set a := Ret {| leftDelim := leftDelim t; rightDelim := rightDelim t;
                      missingKey := a; Tree := Tree t |} in
  if String.eqb opt "missingkey=default" then set mapInvalid
  else if String.eqb opt "missingkey=invalid" then set mapInvalid
  else if String.eqb opt "missingkey=zero" then set mapZeroValue
  else if String.eqb opt "missingkey=error" then set mapError
  else Panic UnrecognizedOption.

(** [Template.Delims]. *)
Definition Delims (t : Template) (left right : string) : Template :=
  {| leftDelim := left; rightDelim := right;
     missingKey := missingKey t; Tree := Tree t |}.

(** *** Lexing and parsing *)

Definition isSpace (c : ascii) : bool :=
  Ascii.eqb c " " || Ascii.eqb c "009" || Ascii.eqb c "013" || Ascii.eqb c "010".

Definition isDigit (c : ascii) : bool :=
  let n := nat_of_ascii c in ((48 <=? n) && (n <=? 57))%nat.

(** [isAlphaNumeric] on one-byte characters: [_], letters and digits. *)
Definition isAlphaNumeric (c : ascii) : bool :=
  let n := nat_of_ascii c in
  Ascii.eqb c "_" || isDigit c
  || ((65 <=? n) && (n <=? 90))%nat || ((97 <=? n) && (n <=? 122))%nat.

Fixpoint skipSpaces (s : string) : string :=
  match s with
  | String c s' => if isSpace c then skipSpaces s' else s
  | EmptyString => s
  end.

(** The fields of a chain, after its first [.]: [cur] is the field being
    read, [acc] the fields read so far, last first.  Each field is a
    non-empty run of [isAlphaNumeric] bytes that does not start with a
    digit; the chain ends before the first byte that is neither such a
    byte nor a [.].  [None] for anything else. *)
Fixpoint fieldChain (s cur : string) (acc : list string) : option (list string * string) :=
  match s with
  | String c s' =>
      if isAlphaNumeric c then
        match cur with
        | EmptyString => if isDigit c then None else fieldChain s' (String c EmptyString) acc
        | _ => fieldChain s' (cur +:+ String c EmptyString) acc
        end
      else
        match cur with
        | EmptyString => None
        | _ => if Ascii.eqb c "." then fieldChain s' EmptyString (cur :: acc)
               else Some (rev (cur :: acc), s)
        end
  | EmptyString =>
      match cur with
      | EmptyString => None
      | _ => Some (rev (cur :: acc), s)
      end
  end.

(** The right delimiters for which an action of the covered shape is read
    the same way by every release of the lexer: the first byte is a
    one-byte character that can neither continue a field nor start a trim
    marker or a space. *)
Definition plainRightDelim (right : string) : bool :=
  match right with
  | EmptyString => false
  | String c _ =>
      (nat_of_ascii c <? 128)%nat && negb (isSpace c) && negb (isAlphaNumeric c)
      && negb (Ascii.eqb c ".") && negb (Ascii.eqb c "-")
  end.

(** An action of the covered shape, read from just after the left
    delimiter: spaces, a field chain, spaces, the right delimiter.  The
    result is the node and the input after the right delimiter. *)
Definition coveredAction (right s : string) : option (Node * string) :=
  if plainRightDelim right then
    match skipSpaces s with
    | String "." s1 =>
        match fieldChain s1 EmptyString [] with
        | Some (field :: more, s2) =>
            let s3 := skipSpaces s2 in
            if HasPrefix s3 right
            then Some (ActionNode field more, slice_from (String.length right) s3)
            else None
        | _ => None
        end
    | _ => None
    end
  else None.

Inductive ParseError : Type :=
| UnclosedAction.   (* a left delimiter that no right delimiter follows *)

Inductive Parsed (A : Type) : Type :=
| Covered (a : A)
| ParseFailed (e : ParseError)
| NotCovered.
Arguments Covered {A} a.
Arguments ParseFailed {A} e.
Arguments NotCovered {A}.

(** [lexText] and the parser's [itemList]: text runs up to the next left
    delimiter and is kept as a [TextNode] when it is not empty; an action
    follows.  [fuel] bounds the number of actions. *)
Fixpoint parseList (fuel : nat) (left right s : string) : Parsed (list Node) :=
  match Index s left with
  | None =>
      Covered (match s with EmptyString => [] | _ => [TextNode s] end)
  | Some x =>
      let text := match x with 0 => [] | _ => [TextNode (slice_to x s)] end in
      let s1 := slice_from (x + String.length left) s in
      match Index s1 right with
      | None => ParseFailed UnclosedAction
      | Some _ =>
          match fuel, coveredAction right s1 with
          | S fuel', Some (action, s2) =>
              match parseList fuel' left right s2 with
              | Covered nodes => Covered (text ++ action :: nodes)
              | other => other
              end
          | _, _ => NotCovered
          end
      end
  end.

(** The delimiters in force: the empty string stands for the default. *)
Definition activeLeft (t : Template) : string :=
  match leftDelim t with EmptyString => "{{" | l => l end.

Definition activeRight (t : Template) : string :=
  match rightDelim t with EmptyString => "}}" | r => r end.

Definition withTree (t : Template) (nodes : list Node) : Template :=
  {| leftDelim := leftDelim t; rightDelim := rightDelim t;
     missingKey := missingKey t; Tree := Some nodes |}.

(** [Template.Parse(text)]. *)
Definition Parse (t : Template) (text : string) : Parsed Template :=
  let left := activeLeft t in
  let right := activeRight t in
  match parseList (String.length text) left right text with
  | Covered nodes => Covered (withTree t nodes)
  | ParseFailed e => ParseFailed e
  | NotCovered => NotCovered
  end.

(** *** Execution *)

(** The kind of an execution error and the key or field it names.  The
    message of the library also names the template, the position and the
    action, and for a field that cannot be evaluated the type of the
    receiver; these are not kept. *)
Inductive ExecError : Type :=
| MapHasNoEntry (key : string)       (* map has no entry for key "..." *)
| NilDataNoEntry (key : string)      (* nil data; no entry for key "..." *)
| NilPointerEvaluating (field : string)
| CantEvaluateField (field : string)
| IncompleteTemplate.

(** One call of the writer: bytes written as they are, or [fmt.Fprint] of
    a value that is not a string, whose formatting belongs to [fmt]. *)
Inductive Written : Type :=
| WBytes (b : string)
| WFprint (v : Value).

(** [reflect.ValueOf(data)]: the invalid [reflect.Value] ([None]) for the
    nil interface. *)
Definition ValueOf (data : Value) : option Value :=
  match data with
  | VNil => None
  | _ => Some data
  end.

(** [state.evalField] without arguments.  [receiver] is a
    [reflect.Value]: [None] is the invalid one, [Some VNil] a valid
    interface value that holds nil (a map element that is [null]). *)
Definition evalField (mk : missingKeyAction) (fieldName : string)
    (receiver : option Value) : ExecError + option Value :=
  match receiver with
  | None =>
      match mk with
      | mapError => inl (NilDataNoEntry fieldName)
      | _ => inr None
      end
  | Some VNil => inl (NilPointerEvaluating fieldName)
  | Some (VMap m) =>
      match m !! fieldName with
      | Some v => inr (Some v)
      | None =>
          match mk with
          | mapInvalid => inr None
          | mapZeroValue => inr (Some VNil)
          | mapError => inl (MapHasNoEntry fieldName)
          end
      end
  | Some (VMapString m) =>
      match m !! fieldName with
      | Some v => inr (Some (VString v))
      | None =>
          match mk with
          | mapInvalid => inr None
          | mapZeroValue => inr (Some (VString ""))
          | mapError => inl (MapHasNoEntry fieldName)
          end
      end
  | Some _ => inl (CantEvaluateField fieldName)
  end.

(** [state.evalFieldChain]: every field of the chain in turn. *)
Fixpoint evalFieldChain (mk : missingKeyAction) (receiver : option Value)
    (ident : list string) : ExecError + option Value :=
  match ident with
  | [] => inr receiver
  | fieldName :: ident' =>
      match evalField mk fieldName receiver with
      | inl e => inl e
      | inr receiver' => evalFieldChain mk receiver' ident'
      end
  end.

(** [state.printValue], after [evalPipeline] has dug the value out of
    its interface: [<no value>] for an invalid value. *)
Definition printValue (v : option Value) : Written :=
  match v with
  | None | Some VNil => WBytes "<no value>"
  | Some (VString s) => WBytes s
  | Some v' => WFprint v'
  end.

Inductive Executed : Type :=
| Done (wr : list Written)
| Failed (wr : list Written) (e : ExecError).

(** [state.walk] over the list of nodes; [wr] is what has been written
    so far, and stays written when an action fails. *)
Fixpoint walk (mk : missingKeyAction) (dot : option Value) (nodes : list Node)
    (wr : list Written) : Executed :=
  match nodes with
  | [] => Done wr
  | TextNode text :: nodes' => walk mk dot nodes' (wr ++ [WBytes text])
  | ActionNode field more :: nodes' =>
      match evalFieldChain mk dot (field :: more) with
      | inl e => Failed wr e
      | inr v => walk mk dot nodes' (wr ++ [printValue v])
      end
  end.

(** [Template.Execute(wr, data)]. *)
Definition Execute (t : Template) (data : Value) : Executed :=
  match Tree t with
  | None => Failed [] IncompleteTemplate
  | Some nodes => walk (missingKey t) (ValueOf data) nodes []
  end.

(** The bytes a sequence of writes puts out, when every write is of
    bytes. *)
Fixpoint bytesOf (wr : list Written) : option string :=
  match wr with
  | [] => Some EmptyString
  | WBytes b :: wr' => String.append b <$> bytesOf wr'
  | WFprint _ :: _ => None
  end.

End template.

Import template.

(** ** [main] (lines 49-117) and [parseArgs] (lines 201-221) *)

(** The calls of [log.Fatal] and [log.Fatalf], by the message they print. *)
Inductive FatalError : Type :=
| FatalUsage                              (* Error: please specify --json-data, ... *)
| FatalOpenInput (err : error)            (* Error opening input file *)
| FatalReadInput (err : error)            (* Error reading input file *)
| FatalDataFile (err : error)             (* Error opening data file *)
| FatalDelimiters                         (* Error: invalid delimiter format *)
| FatalParse (err : ParseError)           (* Error parsing template *)
| FatalCreateOutput (err : error)         (* Error creating output file *)
| FatalRender (err : ExecError).          (* Error rendering template *)

(** How a run of the program ends.  [out] is what [Execute] wrote to the
    output. *)
Inductive Outcome : Type :=
| Exit0 (out : list Written)                  (* [main] returns *)
| ShowedVersion                               (* --version, exit status 0 *)
| ShowedUsage                                 (* --help, exit status 0 *)
| Fatal (out : list Written) (e : FatalError) (* exit status 1 *)
| Crash (e : RuntimeError)                    (* unrecovered panic *)
| OutsideModel.                               (* a template [Parse] does not cover *)

(** A step of [main]: go on with a value, or end the program. *)
Inductive Step (A : Type) : Type :=
| Continue (a : A)
| End (o : Outcome).
Arguments Continue {A} a.
Arguments End {A} o.

#[global] Instance Step_bind : MBind Step := fun A B k m =>
  match m with
  | Continue a => k a
  | End o => End o
  end.

Definition run {A : Type} (m : Run A) : Step A :=
  match m with
  | Ret a => Continue a
  | Panic e => End (Crash e)
  end.

Definition isSet (s : string) : bool := negb (String.eqb s "").

(** The end of [parseArgs], from [flag.Parse] on. *)
Definition parseArgs (g : Flags) : Step unit :=
  if versionFlag g then End ShowedVersion
  else if helpFlag g then End ShowedUsage
  else if negb (countTrue [isSet (jsonDataFile g); isSet (yamlDataFile g); envFlag g] =? 1)
  then End (Fatal [] FatalUsage)
  else Continue tt.

(** Lines 53-66: the template text. *)
Definition readInput (os : World) (g : Flags) : Step string :=
  in_ ← (if isSet (inputFile g) && negb (String.eqb (inputFile g) "-") then
           match Open os (inputFile g) with
           | None => End (Fatal [] (FatalOpenInput (ErrOpen (inputFile g))))
           | Some f => Continue f
           end
         else Continue (Stdin os));
  match bytes in_ with
  | None => End (Fatal [] (FatalReadInput ErrRead))
  | Some tplStr => Continue tplStr
  end.

(** Lines 68-85: the data.  The subtree is taken before [err] is looked
    at. *)
Definition readData (os : World) (g : Flags) : Step Value :=
  '(data, err) ←
    (if isSet (jsonDataFile g) then
       let '(data, err) := parseJSON os (jsonDataFile g) in
       if isSet (subtree g)
       then data' ← run (getSubTree g data (subtree g)); Continue (data', err)
       else Continue (data, err)
     else if isSet (yamlDataFile g) then
       let '(data, err) := parseYAML os (yamlDataFile g) in
       if isSet (subtree g)
       then data' ← run (getSubTree g data (subtree g)); Continue (data', err)
       else Continue (data, err)
     else run (parseEnv os));
  match err with
  | Some e => End (Fatal [] (FatalDataFile e))
  | None => Continue data
  end.

(** The test of line 93, on a non-empty string: the number of [:] is not
    one, or the last byte is [:], or the first byte is [:]. *)
Definition rejected (delimiters : string) : bool :=
  negb (Count delimiters ":" =? 1)
  || String.eqb (slice_from (String.length delimiters - 1) delimiters) ":"
  || String.eqb (slice_to 1 delimiters) ":".

(** Lines 87-98: the template before its text is parsed. *)
Definition prepareTemplate (g : Flags) : Step Template :=
  let tpl := New "template" in
  tpl ← (if strictFlag g then run (Option tpl "missingkey=error") else Continue tpl);
  if isSet (delimiters g) then
    if rejected (delimiters g)
    then End (Fatal [] FatalDelimiters)
    else
      let d := Split (delimiters g) ":" in
      match d !! 0, d !! 1 with
      | Some ld, Some rd => Continue (Delims tpl ld rd)
      | _, _ => End (Crash IndexOutOfRange)
      end
  else Continue tpl.

(** The same step in the revision before [--delimiters], where the option
    is always set: [fmt.Sprintf("missingkey=%s", missingkey)] with
    [missingkey] either [default] or [error]. *)
Definition prepareTemplate_previous (strictFlag : bool) : Run Template :=
  let missingkey := if strictFlag then "error" else "default" in
  Option (New "template") ("missingkey=" +:+ missingkey).

(** Lines 99-116: parse, open the output, render. *)
Definition render (os : World) (g : Flags) (tpl : Template) (tplStr : string)
    (data : Value) : Outcome :=
  match Parse tpl tplStr with
  | NotCovered => OutsideModel
  | ParseFailed e => Fatal [] (FatalParse e)
  | Covered tpl =>
      if isSet (outputFile g) && negb (String.eqb (outputFile g) "-")
         && negb (Create os (outputFile g))
      then Fatal [] (FatalCreateOutput (ErrCreate (outputFile g)))
      else
        match Execute tpl data with
        | Failed wr e => Fatal wr (FatalRender e)
        | Done wr => Exit0 wr
        end
  end.

Definition main (os : World) (g : Flags) : Outcome :=
  match
    (_ ← parseArgs g;
     tplStr ← readInput os g;
     data ← readData os g;
     tpl ← prepareTemplate g;
     End (render os g tpl tplStr data) : Step unit)
  with
  | Continue _ => Exit0 []
  | End o => o
  end.

(** ** The specification's words *)

(** "a sequence of string segments derived by splitting a dotted path string
    (leading [.] ignored)". *)
Definition spec_segments (path : string) : list string :=
  match path with
  | String "." rest => Split rest "."
  | _ => Split path "."
  end.

(** "only the first [=] splits name from value; everything after remains
    part of the value". *)
Definition spec_env_pair (entry : string) : option (string * string) :=
  match Index entry "=" with
  | Some i => Some (slice_to i entry, slice_from (S i) entry)
  | None => None
  end.

(** "descends through those segments in order, returning the value found
    after consuming all of them when each lookup succeeds": [None] as soon as
    a segment is looked up in something that is not a mapping, or is not a
    key of the mapping. *)
Fixpoint descend (v : Value) (segments : list string) : option Value :=
  match segments with
  | [] => Some v
  | k :: segments' =>
      match v with
      | VMap m =>
          match m !! k with
          | Some v' => descend v' segments'
          | None => None
          end
      | _ => None
      end
  end.

(** "must be exactly one [:] separator, neither side empty": [spec] is
    [left], one [:], [right]. *)
Definition delimiterSpec (spec left right : string) : Prop :=
  spec = left +:+ ":" +:+ right
  /\ CountByte left ":" = 0 /\ CountByte right ":" = 0
  /\ left <> "" /\ right <> "".





(** The execution errors that report a missing key. *)
Definition reportsMissing (key : string) (e : ExecError) : Prop :=
  e = MapHasNoEntry key \/ e = NilDataNoEntry key.

(** No number of the document is written as an integer. *)
Fixpoint integerFree (d : Doc) : Prop :=
  match d with
  | DInt _ => False
  | DSeq items => fold_right (fun d' P => integerFree d' /\ P) True items
  | DObject members => fold_right (fun kv P => integerFree (snd kv) /\ P) True members
  | _ => True
  end.

(** The two decoders agree on a document: whatever the YAML decoder stores
    for it, when no number of it is written as an integer, the JSON decoder
    stores too. *)
Definition agree (d : Doc) : Prop :=
  forall v, integerFree d -> yamlValue d = Some v -> jsonValue d = v.



(** ** Concrete inputs *)

Definition noFlags : Flags :=
  {| inputFile := ""; outputFile := ""; jsonDataFile := ""; yamlDataFile := "";
     delimiters := ""; subtree := ""; envFlag := false; strictFlag := false;
     helpFlag := false; versionFlag := false |}.

(** [datasubst --json-data data.json], [datasubst --yaml-data data.yaml] and
    [datasubst --env-data]. *)
Definition jsonFlags : Flags :=
  {| inputFile := ""; outputFile := ""; jsonDataFile := "data.json"; yamlDataFile := "";
     delimiters := ""; subtree := ""; envFlag := false; strictFlag := false;
     helpFlag := false; versionFlag := false |}.

Definition yamlFlags : Flags :=
  {| inputFile := ""; outputFile := ""; jsonDataFile := ""; yamlDataFile := "data.yaml";
     delimiters := ""; subtree := ""; envFlag := false; strictFlag := false;
     helpFlag := false; versionFlag := false |}.

Definition envFlags : Flags :=
  {| inputFile := ""; outputFile := ""; jsonDataFile := ""; yamlDataFile := "";
     delimiters := ""; subtree := ""; envFlag := true; strictFlag := false;
     helpFlag := false; versionFlag := false |}.

(** A process with [text] on its standard input, the environment [env] and
    no file. *)
Definition process (text : string) (env : list string) : World :=
  {| Stdin := {| bytes := Some text; json := None; yaml := None |};
     Environ := env;
     Open := fun _ => None;
     Create := fun _ => false |}.

(** A process with [text] on its standard input, in a directory where
    [data.json] and [data.yaml] hold the document [d]. *)
Definition documentWorld (text : string) (d : Doc) : World :=
  {| Stdin := {| bytes := Some text; json := None; yaml := None |};
     Environ := [];
     Open := fun path =>
       if String.eqb path "data.json"
       then Some {| bytes := None; json := Some d; yaml := None |}
       else if String.eqb path "data.yaml"
       then Some {| bytes := None; json := None; yaml := Some d |}
       else None;
     Create := fun _ => false |}.

(** The scenario of the specification: the template [{{ .missing }}] and
    the JSON document [{}]. *)
Definition missingWorld : World := documentWorld "{{ .missing }}" (DObject []).

(** [examples/basic-data.yaml], as far as the usage text shows it:
    [key1: v1] and [key2: {first: {key3: v3}}], as a document and as a
    value. *)
Definition basicDocument : Doc :=
  DObject [("key1", DString "v1");
           ("key2", DObject [("first", DObject [("key3", DString "v3")])])].

Definition basicData : Value :=
  VMap {[ "key1" := VString "v1";
          "key2" := VMap {[ "first" := VMap {[ "key3" := VString "v3" ]} ]} ]}.

(** [echo "{{ .TEST1 }} {{ .TEST2 }}" | TEST1="hello" TEST2="world" datasubst
    --env-data], as in the usage text. *)
Definition envWorld : World :=
  process "{{ .TEST1 }} {{ .TEST2 }}" ["TEST1=hello"; "TEST2=world"].

(** ** The earlier revisions of [main]

    The repository holds two earlier revisions of [main.go].  Both inline
    what [parseArgs] does in the latest one, in the same order, and share
    the reading of the input and the rendering with it. *)

(** The revision with [--env-data] and [--strict] (lines 150-161 of it):
    the data, without subtree. *)
Definition readData_previous (os : World) (g : Flags) : Step Value :=
  '(data, err) ←
    (if isSet (jsonDataFile g) then Continue (parseJSON os (jsonDataFile g))
     else if isSet (yamlDataFile g) then Continue (parseYAML os (yamlDataFile g))
     else run (parseEnv os));
  match err with
  | Some e => End (Fatal [] (FatalDataFile e))
  | None => Continue data
  end.

(** [main] of that revision (lines 87-184 of it). *)
Definition main_previous (os : World) (g : Flags) : Outcome :=
  match
    (_ ← parseArgs g;
     tplStr ← readInput os g;
     data ← readData_previous os g;
     tpl ← run (prepareTemplate_previous (strictFlag g));
     End (render os g tpl tplStr data) : Step unit)
  with
  | Continue _ => Exit0 []
  | End o => o
  end.

(** The first revision, with JSON and YAML only (lines 88-108 of it): the
    check of the data source is written out on the two file names.  Its
    message names the two sources of that revision. *)
Definition parseArgs_first (g : Flags) : Step unit :=
  if versionFlag g then End ShowedVersion
  else if helpFlag g then End ShowedUsage
  else if (negb (isSet (jsonDataFile g)) && negb (isSet (yamlDataFile g)))
          || (isSet (jsonDataFile g) && isSet (yamlDataFile g))
  then End (Fatal [] FatalUsage)
  else Continue tt.

(** Lines 123-132 of the first revision. *)
Definition readData_first (os : World) (g : Flags) : Step Value :=
  let '(data, err) :=
    if isSet (jsonDataFile g) then parseJSON os (jsonDataFile g)
    else parseYAML os (yamlDataFile g) in
  match err with
  | Some e => End (Fatal [] (FatalDataFile e))
  | None => Continue data
  end.

(** [main] of the first revision (lines 64-151 of it): the template is
    parsed as [template.New] makes it. *)
Definition main_first (os : World) (g : Flags) : Outcome :=
  match
    (_ ← parseArgs_first g;
     tplStr ← readInput os g;
     data ← readData_first os g;
     End (render os g (New "template") tplStr data) : Step unit)
  with
  | Continue _ => Exit0 []
  | End o => o
  end.

(** ** Flags and entries, for the statements *)

Definition setEnvFlag (g : Flags) (b : bool) : Flags :=
  {| inputFile := inputFile g; outputFile := outputFile g;
     jsonDataFile := jsonDataFile g; yamlDataFile := yamlDataFile g;
     delimiters := delimiters g; subtree := subtree g;
     envFlag := b; strictFlag := strictFlag g;
     helpFlag := helpFlag g; versionFlag := versionFlag g |}.

(** The environment entry [name=value]. *)
Definition entry (kv : string * string) : string :=
  fst kv +:+ String "=" (snd kv).

(** A name and a value without [=]. *)
Definition plainPair (kv : string * string) : Prop :=
  CountByte (fst kv) "=" = 0 /\ CountByte (snd kv) "=" = 0.

(** No two of the pairs have the same name, as in what [os.Environ()]
    returns: of the entries of a repeated name it keeps the first one
    only. *)
Definition distinctNames (pairs : list (string * string)) : Prop :=
  List.NoDup (map fst pairs).

Definition setEnviron (os : World) (env : list string) : World :=
  {| Stdin := Stdin os; Environ := env; Open := Open os; Create := Create os |}.

Definition setOpen (os : World) (open : string -> option File) : World :=
  {| Stdin := Stdin os; Environ := Environ os; Open := open; Create := Create os |}.

(** The node whose field chain is prefixed with the segments of a path. *)
Definition prefixed (segments : list string) (node : Node) : Node :=
  match segments, node with
  | s :: segments', ActionNode field more => ActionNode s (segments' ++ field :: more)
  | _, _ => node
  end.

(** The flags with the JSON file, or the YAML file, as the only data
    source. *)
Definition useJSON (g : Flags) (path : string) : Flags :=
  {| inputFile := inputFile g; outputFile := outputFile g;
     jsonDataFile := path; yamlDataFile := "";
     delimiters := delimiters g; subtree := subtree g;
     envFlag := false; strictFlag := strictFlag g;
     helpFlag := helpFlag g; versionFlag := versionFlag g |}.

Definition useYAML (g : Flags) (path : string) : Flags :=
  {| inputFile := inputFile g; outputFile := outputFile g;
     jsonDataFile := ""; yamlDataFile := path;
     delimiters := delimiters g; subtree := subtree g;
     envFlag := false; strictFlag := strictFlag g;
     helpFlag := helpFlag g; versionFlag := versionFlag g |}.

(** * Properties *)

(** ** Strings *)

Section StringFacts.

Lemma HasPrefix_nil s : HasPrefix s "" = true.
Proof. destruct s; reflexivity. Qed.

Lemma append_cons c s t : String c s +:+ t = String c (s +:+ t).
Proof. reflexivity. Qed.

Lemma slice_from_0 s : slice_from 0 s = s.
Proof. destruct s; reflexivity. Qed.

Lemma slice_to_app l r : slice_to (String.length l) (l +:+ r) = l.
Proof. induction l as [|c l IH]; simpl; [destruct r; reflexivity | now rewrite IH]. Qed.

Lemma slice_from_app l r : slice_from (String.length l) (l +:+ r) = r.
Proof. induction l as [|c l IH]; simpl; [apply slice_from_0 | exact IH]. Qed.

Lemma slice_to_from n s : slice_to n s +:+ slice_from n s = s.
Proof.
  revert s; induction n as [|n IH]; intros [|c s]; simpl; try reflexivity.
  now rewrite append_cons, IH.
Qed.

Lemma CountByte_app l r c : CountByte (l +:+ r) c = CountByte l c + CountByte r c.
Proof. induction l as [|a l IH]; simpl; [reflexivity | rewrite IH; lia]. Qed.

Lemma append_byte_assoc l r c : (l +:+ String c "") +:+ r = l +:+ String c r.
Proof. induction l as [|a l IH]; [reflexivity | now rewrite !append_cons, IH]. Qed.

Lemma length_append_byte l c :
  String.length (l +:+ String c "") = String.length l + 1.
Proof. induction l as [|a l IH]; [reflexivity | rewrite append_cons; simpl in *; lia]. Qed.

(** Splitting at a one-byte separator: a leading separator yields an empty
    first piece. *)
Lemma Split_leading_sep c rest :
  Split (String c rest) (String c "") = "" :: Split rest (String c "").
Proof.
  unfold Split; simpl. rewrite Ascii.eqb_refl; simpl.
  rewrite Ascii.eqb_refl, HasPrefix_nil. simpl. reflexivity.
Qed.

(** A string without the byte is not split. *)
Lemma genSplit_no_sep n s c :
  CountByte s c = 0 -> genSplit n s (String c "") = [s].
Proof.
  destruct n as [|n]; [reflexivity|]. simpl.
  assert (H : CountByte s c = 0 -> Index s (String c "") = None).
  { clear. induction s as [|a s IH]; simpl; [reflexivity|].
    destruct (Ascii.eqb a c); simpl; [discriminate|].
    intros H. now rewrite IH. }
  intros H0. now rewrite (H H0).
Qed.

(** The first occurrence of a byte. *)
Lemma Index_byte_app l r c :
  CountByte l c = 0 ->
  Index (l +:+ String c r) (String c "") = Some (String.length l).
Proof.
  induction l as [|a l IH]; simpl.
  - intros _. now rewrite Ascii.eqb_refl, HasPrefix_nil.
  - destruct (Ascii.eqb a c); simpl; [discriminate|].
    intros H. now rewrite (IH H).
Qed.

Lemma Index_byte_Some s c m :
  Index s (String c "") = Some m ->
  s = slice_to m s +:+ String c (slice_from (S m) s)
  /\ CountByte (slice_to m s) c = 0 /\ String.length (slice_to m s) = m.
Proof.
  revert m; induction s as [|a s IH]; simpl; [discriminate|].
  intros m. destruct (Ascii.eqb a c) eqn:E.
  - rewrite HasPrefix_nil. intros [= <-]. simpl.
    apply Ascii.eqb_eq in E. subst a. rewrite ?slice_from_0. auto.
  - destruct (Index s (String c "")) as [m'|] eqn:I; simpl; [|discriminate].
    intros [= <-]. destruct (IH m' eq_refl) as (H1 & H2 & H3).
    change (slice_to (S m') (String a s)) with (String a (slice_to m' s)).
    change (slice_from (S (S m')) (String a s)) with (slice_from (S m') s).
    cbn [CountByte String.length]. rewrite E, H2, H3, append_cons, <- H1. auto.
Qed.

(** With exactly one occurrence of the separator, [Split] returns the two
    sides. *)
Lemma Split_one_sep l r c :
  CountByte l c = 0 -> CountByte r c = 0 ->
  Split (l +:+ String c r) (String c "") = [l; r].
Proof.
  intros Hl Hr. unfold Split. simpl Count.
  rewrite CountByte_app. simpl. rewrite Ascii.eqb_refl, Hl, Hr. simpl.
  rewrite (Index_byte_app l r c Hl).
  rewrite slice_to_app.
  rewrite <- (length_append_byte l c), <- (append_byte_assoc l r c), slice_from_app.
  reflexivity.
Qed.

End StringFacts.

(** ** Subtree navigation *)

Lemma getSubTree_loop_descend st : forall data found,
  descend data st = Some found -> getSubTree_loop st data = Ret found.
Proof.
  induction st as [|k st IH]; intros data found; simpl.
  - now intros [= ->].
  - destruct data; try discriminate.
    destruct (m !! k) as [v'|] eqn:E; [|discriminate].
    simpl. apply IH.
Qed.

(** The walk stops the program as soon as a segment is asked of a value
    that is not a [map[string]interface{}]. *)
Lemma getSubTree_loop_not_map k st data :
  (forall m, data <> VMap m) -> getSubTree_loop (k :: st) data = Panic InterfaceConversion.
Proof. intros H; destruct data; try reflexivity. now destruct (H m). Qed.

(** An absent key before the last segment stops the program too. *)
Lemma getSubTree_loop_absent k k' st m :
  m !! k = None -> getSubTree_loop (k :: k' :: st) (VMap m) = Panic InterfaceConversion.
Proof. intros H. simpl. now rewrite H. Qed.

(** C10. The result of [getSubTree] does not depend on its second argument:
    for every data value and any two path strings it returns the same
    result, the walk along the segments of the package-level [subtree]. *)
Theorem getSubTree_ignores_its_path_argument :
  forall (g : Flags) (data : Value) (p1 p2 : string),
    getSubTree g data p1 = getSubTree g data p2
    /\ getSubTree g data p1 = getSubTree_loop (pathSegments (subtree g)) data.
Proof. intros g data p1 p2. split; reflexivity. Qed.

(** C2. [getSubTree] is not total: with the subtree path [.a.b] it panics
    with a failed type assertion on the data [{"a": "x"}], where [b] is
    asked of a string, and on the data [{}], where [a] is absent and [b] is
    asked of the nil value; [main] does not recover, and the program
    crashes. *)
Theorem getSubTree_panics_on_non_mapping :
  getSubTree (setSubtree noFlags ".a.b") (VMap {[ "a" := VString "x" ]}) ".a.b"
    = Panic InterfaceConversion
  /\ getSubTree (setSubtree noFlags ".a.b") (VMap ∅) ".a.b"
    = Panic InterfaceConversion
  /\ main (documentWorld "{{ .c }}" (DObject [("a", DString "x")]))
          (setSubtree jsonFlags ".a.b")
    = Crash InterfaceConversion
  /\ main (documentWorld "{{ .c }}" (DObject [])) (setSubtree jsonFlags ".a.b")
    = Crash InterfaceConversion.
Proof. repeat split. Qed.

(** C5, as amended. For every subtree path that begins with [.], the
    segments the navigator walks are those obtained by splitting the path on
    [.] with the leading [.] ignored; [.key2.first] yields [key2], [first];
    and when each lookup along these segments succeeds, [getSubTree] returns
    the value found after the last one. *)
Theorem subtree_path_segments :
  forall (g : Flags) (data : Value) (rest : string),
    subtree g = String "." rest ->
    pathSegments (subtree g) = spec_segments (subtree g)
    /\ pathSegments ".key2.first" = ["key2"; "first"]
    /\ forall found,
         descend data (spec_segments (subtree g)) = Some found ->
         getSubTree g data (subtree g) = Ret found.
Proof.
  intros g data rest Hdot.
  assert (Hseg : pathSegments (subtree g) = spec_segments (subtree g)).
  { rewrite Hdot. unfold pathSegments, spec_segments.
    now rewrite Split_leading_sep. }
  split; [exact Hseg|]. split; [reflexivity|].
  intros found Hfound. unfold getSubTree. rewrite Hseg.
  now apply getSubTree_loop_descend.
Qed.

Lemma subtree_path_segments_witness :
  getSubTree (setSubtree noFlags ".key2.first") basicData ".key2.first"
  = Ret (VMap {[ "key3" := VString "v3" ]}).
Proof.
  apply (subtree_path_segments (setSubtree noFlags ".key2.first") basicData "key2.first").
  - reflexivity.
  - reflexivity.
Defined.

(** C5, as stated, fails on a path without a leading [.]: of [key2.first]
    the navigator walks [first] alone, not [key2], [first]. *)
Lemma path_without_leading_dot_loses_a_segment :
  pathSegments "key2.first" = ["first"]
  /\ spec_segments "key2.first" = ["key2"; "first"]
  /\ pathSegments "key2.first" <> spec_segments "key2.first".
Proof. repeat split; try reflexivity. discriminate. Qed.

(** ** The environment *)

(** [Split] cuts at every occurrence of a one-byte separator. *)
Lemma Split_piece l r c :
  CountByte l c = 0 ->
  Split (l +:+ String c r) (String c "") = l :: Split r (String c "").
Proof.
  intros Hl. unfold Split. simpl Count.
  rewrite CountByte_app. cbn [CountByte]. rewrite Ascii.eqb_refl, Hl.
  cbn [Nat.add genSplit]. rewrite (Index_byte_app l r c Hl), slice_to_app.
  change (String.length (String c "")) with 1.
  now rewrite <- (length_append_byte l c), <- (append_byte_assoc l r c), slice_from_app.
Qed.

(** An entry with a single [=] is bound as the specification says. *)
Lemma parseEnv_loop_plain name value env data :
  CountByte name "=" = 0 -> CountByte value "=" = 0 ->
  parseEnv_loop ((name +:+ String "=" value) :: env) data
  = parseEnv_loop env (<[name := value]> data).
Proof.
  intros Hn Hv. cbn [parseEnv_loop]. now rewrite (Split_one_sep name value "=" Hn Hv).
Qed.

(** An entry whose value holds a [=] is bound to the part of the value
    before that [=]. *)
Lemma parseEnv_loop_cut name v1 v2 env data :
  CountByte name "=" = 0 -> CountByte v1 "=" = 0 ->
  parseEnv_loop ((name +:+ String "=" (v1 +:+ String "=" v2)) :: env) data
  = parseEnv_loop env (<[name := v1]> data).
Proof.
  intros Hn Hv. cbn [parseEnv_loop].
  now rewrite (Split_piece name _ "=" Hn), (Split_piece v1 _ "=" Hv).
Qed.

(** C3. [parseEnv] splits an entry at every [=]: the entry [A=b=c] binds [A]
    to [b], where splitting at the first [=] only binds it to [b=c]. *)
Theorem parseEnv_cuts_value_at_second_equals :
  parseEnv (process "" ["A=b=c"]) = Ret (VMapString {[ "A" := "b" ]}, None)
  /\ spec_env_pair "A=b=c" = Some ("A", "b=c").
Proof. split; reflexivity. Qed.

(** ** The delimiter specification *)

Section Delimiters.

Lemma length_append p r : String.length (p +:+ r) = String.length p + String.length r.
Proof. induction p as [|a p IH]; [reflexivity | rewrite append_cons; simpl; now rewrite IH]. Qed.

Lemma slice_from_add p r k : slice_from (String.length p + k) (p +:+ r) = slice_from k r.
Proof. induction p as [|a p IH]; [reflexivity | exact IH]. Qed.

Lemma CountByte_slice_from n s c : CountByte (slice_from n s) c <= CountByte s c.
Proof.
  revert s; induction n as [|n IH]; intros [|a s]; simpl; try lia.
  specialize (IH s). lia.
Qed.

Lemma CountByte_Index s c :
  CountByte s c <> 0 -> exists m, Index s (String c "") = Some m.
Proof.
  induction s as [|a s IH]; simpl; [congruence|].
  destruct (Ascii.eqb a c); simpl; [rewrite HasPrefix_nil; eauto|].
  intros H. destruct (IH H) as [m ->]. simpl. eauto.
Qed.

Lemma delimiterSpec_accepted d l r :
  delimiterSpec d l r -> rejected d = false /\ Split d ":" = [l; r].
Proof.
  intros (Heq & Hl & Hr & Hl0 & Hr0).
  change (":" +:+ r) with (String ":" r) in Heq. subst d. split.
  2:{ now apply Split_one_sep. }
  unfold rejected. simpl Count.
  rewrite CountByte_app. cbn [CountByte]. rewrite Hl, Hr. cbn [Ascii.eqb Nat.add Nat.eqb negb orb].
  replace (Ascii.eqb ":" ":") with true by reflexivity. cbn [Nat.add Nat.eqb negb orb].
  assert (H1 : String.eqb (slice_to 1 (l +:+ String ":" r)) ":" = false).
  { destruct l as [|a l]; [congruence|]. rewrite append_cons. cbn [slice_to].
    simpl in Hl. destruct (Ascii.eqb a ":") eqn:E; [discriminate|].
    apply String.eqb_neq. intros [= ->]. discriminate. }
  assert (H2 : String.eqb (slice_from (String.length (l +:+ String ":" r) - 1)
                             (l +:+ String ":" r)) ":" = false).
  { apply String.eqb_neq. intros Heq.
    rewrite <- (append_byte_assoc l r ":") in Heq.
    rewrite length_append in Heq.
    destruct r as [|b r]; [congruence|].
    replace (String.length (l +:+ ":") + String.length (String b r) - 1)
      with (String.length (l +:+ ":") + String.length r) in Heq by (simpl; lia).
    rewrite slice_from_add in Heq.
    pose proof (CountByte_slice_from (String.length r) (String b r) ":") as Hle.
    rewrite Heq, Hr in Hle. simpl in Hle. lia. }
  now rewrite H1, H2.
Qed.

Lemma accepted_delimiterSpec d :
  d <> "" -> rejected d = false -> exists l r, delimiterSpec d l r.
Proof.
  intros Hd Hrej. unfold rejected in Hrej.
  apply orb_false_iff in Hrej as [Hrej Hfirst].
  apply orb_false_iff in Hrej as [Hcount Hlast].
  apply negb_false_iff, Nat.eqb_eq in Hcount. simpl in Hcount.
  destruct (CountByte_Index d ":") as [m Hm]; [lia|].
  destruct (Index_byte_Some d ":" m Hm) as (Heq & Hl & Hlen).
  exists (slice_to m d), (slice_from (S m) d).
  assert (Hr : CountByte (slice_from (S m) d) ":" = 0).
  { pose proof (f_equal (fun s => CountByte s ":") Heq) as Hc. cbv beta in Hc.
    rewrite CountByte_app in Hc. cbn [CountByte] in Hc.
    rewrite Hl in Hc. replace (Ascii.eqb ":" ":") with true in Hc by reflexivity. lia. }
  split; [exact Heq|]. split; [exact Hl|]. split; [exact Hr|]. split.
  - intros Hempty. rewrite Hempty in Heq. rewrite Heq in Hfirst.
    simpl in Hfirst. discriminate.
  - intros Hempty. rewrite Hempty in Heq.
    apply String.eqb_neq in Hlast. apply Hlast.
    set (l := slice_to m d) in *. clearbody l. subst d.
    rewrite length_append. simpl String.length.
    replace (String.length l + 1 - 1) with (String.length l) by lia.
    apply slice_from_app.
Qed.

Lemma prepareTemplate_unfold g :
  isSet (delimiters g) = true ->
  exists tpl,
    missingKey tpl = (if strictFlag g then mapError else mapInvalid)
    /\ prepareTemplate g =
       if rejected (delimiters g) then End (Fatal [] FatalDelimiters)
       else match Split (delimiters g) ":" !! 0, Split (delimiters g) ":" !! 1 with
            | Some ld, Some rd => Continue (Delims tpl ld rd)
            | _, _ => End (Crash IndexOutOfRange)
            end.
Proof.
  intros Hset. unfold prepareTemplate. destruct (strictFlag g); simpl;
    rewrite Hset; eexists; (split; [|reflexivity]); reflexivity.
Qed.

End Delimiters.

Lemma isSet_true s : s <> "" -> isSet s = true.
Proof. intros H. unfold isSet. now apply negb_true_iff, String.eqb_neq. Qed.

(** C6, as amended. For every non-empty delimiter specification, the
    preparation of the template, which does not see the template text, fails
    at the delimiter check if and only if the string is not made of a
    non-empty left side, exactly one [:] and a non-empty right side;
    otherwise the two sides, which are non-empty, are installed as the left
    and the right delimiter. *)
Theorem delimiter_spec_checked_before_parsing :
  forall g : Flags,
    delimiters g <> "" ->
    (prepareTemplate g = End (Fatal [] FatalDelimiters)
     <-> ~ exists l r, delimiterSpec (delimiters g) l r)
    /\ (forall l r, delimiterSpec (delimiters g) l r ->
          l <> "" /\ r <> ""
          /\ exists tpl, prepareTemplate g = Continue tpl
                         /\ leftDelim tpl = l /\ rightDelim tpl = r).
Proof.
  intros g Hne.
  destruct (prepareTemplate_unfold g (isSet_true _ Hne)) as (tpl & _ & Hprep).
  assert (Hok : forall l r, delimiterSpec (delimiters g) l r ->
                  prepareTemplate g = Continue (Delims tpl l r)).
  { intros l r Hspec. destruct (delimiterSpec_accepted _ l r Hspec) as [Hrej Hsplit].
    now rewrite Hprep, Hrej, Hsplit. }
  split.
  - split.
    + intros Hfail (l & r & Hspec). rewrite (Hok l r Hspec) in Hfail. discriminate.
    + intros Hnone. rewrite Hprep.
      destruct (rejected (delimiters g)) eqn:Hrej; [reflexivity|].
      destruct Hnone. now apply accepted_delimiterSpec.
  - intros l r Hspec. pose proof Hspec as (_ & _ & _ & Hl & Hr).
    split; [exact Hl|]. split; [exact Hr|].
    exists (Delims tpl l r). now rewrite (Hok l r Hspec).
Qed.

Lemma delimiter_spec_checked_before_parsing_witness :
  exists tpl, prepareTemplate (setDelimiters noFlags "((:))") = Continue tpl
              /\ leftDelim tpl = "((" /\ rightDelim tpl = "))".
Proof.
  apply (delimiter_spec_checked_before_parsing (setDelimiters noFlags "((:))")).
  - discriminate.
  - repeat split; discriminate.
Defined.

(** When the check fails, the run ends there, whatever the template text
    and the data that have been read. *)
Lemma main_stops_at_delimiter_check os g tplStr data :
  parseArgs g = Continue tt ->
  readInput os g = Continue tplStr ->
  readData os g = Continue data ->
  prepareTemplate g = End (Fatal [] FatalDelimiters) ->
  main os g = Fatal [] FatalDelimiters.
Proof. intros Ha Hi Hd Hp. unfold main. now rewrite Ha, Hi, Hd, Hp. Qed.

(** C6, as stated, asks the two sides to be distinct; the specification
    [x:x] is accepted and installs [x] on both sides. *)
Lemma equal_delimiters_are_installed :
  exists tpl, prepareTemplate (setDelimiters noFlags "x:x") = Continue tpl
              /\ leftDelim tpl = "x" /\ rightDelim tpl = "x"
              /\ leftDelim tpl = rightDelim tpl.
Proof. eexists. repeat split. Qed.

(** ** The template engine *)

Section Engine.

Lemma append_nil_r s : s +:+ "" = s.
Proof. induction s as [|a s IH]; [reflexivity | now rewrite append_cons, IH]. Qed.

Lemma HasPrefix_split s p :
  HasPrefix s p = true -> s = p +:+ slice_from (String.length p) s.
Proof.
  revert s; induction p as [|a p IH]; intros s.
  - intros _. cbn [String.length]. now rewrite slice_from_0.
  - intros H. destruct s as [|c s]; simpl in H; [discriminate|].
    destruct (Ascii.eqb c a) eqn:E; [|discriminate].
    apply Ascii.eqb_eq in E. subst c.
    rewrite append_cons. cbn [String.length slice_from]. f_equal. now apply IH.
Qed.

(** [Index] finds an occurrence whenever there is one. *)
Lemma Index_None s sub :
  (~ exists p q, s = p +:+ sub +:+ q) -> Index s sub = None.
Proof.
  induction s as [|a s IH]; intros Hno.
  - cbn [Index]. destruct (HasPrefix "" sub) eqn:E; [|reflexivity].
    destruct Hno. exists "", (slice_from (String.length sub) "").
    now apply HasPrefix_split.
  - cbn [Index]. destruct (HasPrefix (String a s) sub) eqn:E.
    + destruct Hno. exists "", (slice_from (String.length sub) (String a s)).
      now apply HasPrefix_split.
    + rewrite IH; [reflexivity|].
      intros (p & q & ->). apply Hno. now exists (String a p), q.
Qed.










(** The policy of the template that [main] prepares. *)
Lemma prepareTemplate_missingKey g tpl :
  prepareTemplate g = Continue tpl ->
  missingKey tpl = if strictFlag g then mapError else mapInvalid.
Proof.
  unfold prepareTemplate. destruct (strictFlag g); simpl;
    destruct (isSet (delimiters g)); try (now intros [= <-]);
    destruct (rejected (delimiters g)); try discriminate;
    destruct (Split (delimiters g) ":" !! 0); try discriminate;
    destruct (Split (delimiters g) ":" !! 1); try discriminate;
    now intros [= <-].
Qed.

Lemma Parse_missingKey t text t' :
  Parse t text = Covered t' -> missingKey t' = missingKey t.
Proof.
  unfold Parse. destruct (parseList _ _ _ _); try discriminate. now intros [= <-].
Qed.

End Engine.



(** Without [--delimiters] the two revisions prepare the same template. *)
Lemma prepareTemplate_previous_same g :
  delimiters g = "" -> run (prepareTemplate_previous (strictFlag g)) = prepareTemplate g.
Proof.
  intros H. unfold prepareTemplate, prepareTemplate_previous. rewrite H.
  now destruct (strictFlag g).
Qed.

(** The tree [Parse] builds depends on the delimiters and the text only. *)
Lemma Parse_same_delimiters t1 t2 text t1' :
  leftDelim t2 = leftDelim t1 -> rightDelim t2 = rightDelim t1 ->
  Parse t1 text = Covered t1' ->
  exists nodes, Tree t1' = Some nodes /\ Parse t2 text = Covered (withTree t2 nodes).
Proof.
  intros Hl Hr. unfold Parse, activeLeft, activeRight. rewrite Hl, Hr.
  destruct (parseList _ _ _ _) as [nodes| |]; try discriminate.
  intros [= <-]. now exists nodes.
Qed.






(** In [main]: when the output can be opened, the run ends well with the
    text as its output. *)
Lemma render_text_without_markers os g tpl text data :
  (~ exists p q, text = p +:+ activeLeft tpl +:+ q) ->
  isSet (outputFile g) && negb (String.eqb (outputFile g) "-")
    && negb (Create os (outputFile g)) = false ->
  exists wr, render os g tpl text data = Exit0 wr /\ bytesOf wr = Some text.
Proof.
  intros Hno Hout. unfold render. apply Index_None in Hno.
  unfold Parse.
  assert (Hp : parseList (String.length text) (activeLeft tpl) (activeRight tpl) text
               = Covered (match text with "" => [] | _ => [TextNode text] end)).
  { destruct (String.length text); simpl; now rewrite Hno. }
  rewrite Hp, Hout. unfold Execute. cbn [Tree withTree].
  destruct text as [|a text].
  - now exists [].
  - exists [WBytes (String a text)]. split; [reflexivity|].
    cbn [bytesOf fmap option_fmap option_map]. now rewrite append_nil_r.
Qed.

(** C4, as amended. Rendering the template [{{ .missing }}] against the
    empty JSON object under the default policy writes exactly [<no value>];
    under the strict policy it stops with a rendering error that names the
    key [missing], nothing having been written. *)
Theorem missing_key_scenario :
  main missingWorld jsonFlags = Exit0 [WBytes "<no value>"]
  /\ bytesOf [WBytes "<no value>"] = Some "<no value>"
  /\ main missingWorld (setStrict jsonFlags true)
     = Fatal [] (FatalRender (MapHasNoEntry "missing")).
Proof. repeat split. Qed.

(** C4, as stated, fails: under the default policy the output is not
    empty. *)
Lemma missing_key_output_is_not_empty :
  ~ exists wr, main missingWorld jsonFlags = Exit0 wr /\ bytesOf wr = Some "".
Proof. intros (wr & [= <-] & H). discriminate. Qed.

(** ** The decoders *)

Section Decoders.

Lemma yamlValue_DSeq items : yamlValue (DSeq items) = VSlice <$> yamlSeq items.
Proof. reflexivity. Qed.

Lemma yamlValue_DObject members :
  yamlValue (DObject members) = VMap <$> yamlMapping members ∅.
Proof. reflexivity. Qed.

(** Induction on documents, through sequences and objects. *)
Lemma Doc_nested_ind (P : Doc -> Prop) :
  P DNull -> (forall b, P (DBool b)) -> (forall n, P (DInt n)) ->
  (forall x, P (DFloat x)) -> (forall s, P (DString s)) ->
  (forall items, Forall P items -> P (DSeq items)) ->
  (forall members, Forall (fun kv => P (snd kv)) members -> P (DObject members)) ->
  forall d, P d.
Proof.
  intros HNull HBool HInt HFloat HString HSeq HObject.
  fix IH 1. intros [| b | n | x | s | items | members].
  - exact HNull.
  - apply HBool.
  - apply HInt.
  - apply HFloat.
  - apply HString.
  - apply HSeq. induction items as [|d items IHitems]; constructor; [apply IH | exact IHitems].
  - apply HObject. induction members as [|[k d] members IHm]; constructor;
      [apply IH | exact IHm].
Qed.

Lemma yamlSeq_agree items :
  Forall agree items ->
  forall vs, fold_right (fun d' P => integerFree d' /\ P) True items ->
             yamlSeq items = Some vs -> map jsonValue items = vs.
Proof.
  induction 1 as [|d items Hd _ IH]; intros vs Hfree; cbn [yamlSeq map].
  - now intros [= <-].
  - destruct Hfree as [Hfd Hfree].
    destruct (yamlValue d) as [v|] eqn:Ev; [|discriminate].
    destruct (yamlSeq items) as [vs'|] eqn:Es; [|discriminate].
    intros [= <-]. f_equal; [now apply Hd | now apply IH].
Qed.

Lemma yamlMapping_agree members :
  Forall (fun kv => agree (snd kv)) members ->
  forall m m', fold_right (fun kv P => integerFree (snd kv) /\ P) True members ->
               yamlMapping members m = Some m' ->
               fold_left (fun m kv => let '(k, d') := kv in <[k := jsonValue d']> m)
                         members m = m'.
Proof.
  induction 1 as [|[k d] members Hd _ IH]; intros m m' Hfree;
    cbn [yamlMapping fold_left].
  - now intros [= <-].
  - destruct Hfree as [Hfd Hfree]. cbn [snd] in *.
    destruct (m !! k); [discriminate|].
    destruct (yamlValue d) as [v|] eqn:Ev; [|discriminate].
    rewrite (Hd v Hfd Ev). now apply IH.
Qed.

(** Where no number is written as an integer, what the YAML decoder
    stores is what the JSON decoder stores. *)
Lemma yamlValue_jsonValue d : agree d.
Proof.
  induction d using Doc_nested_ind; intros v Hfree;
    try (now intros [= <-]); try (now destruct Hfree).
  - rewrite yamlValue_DSeq. cbn [integerFree] in Hfree.
    destruct (yamlSeq items) as [vs|] eqn:E; [|discriminate].
    intros [= <-]. cbn [jsonValue]. f_equal. now apply yamlSeq_agree.
  - rewrite yamlValue_DObject. cbn [integerFree] in Hfree.
    destruct (yamlMapping members ∅) as [m'|] eqn:E; [|discriminate].
    intros [= <-]. cbn [jsonValue]. f_equal. now apply yamlMapping_agree.
Qed.












End Decoders.




(** ** The environment as data source *)

Lemma main_usage_error os g out :
  main os g = Fatal out FatalUsage -> parseArgs g = End (Fatal [] FatalUsage).
Proof.
  unfold main, readInput, readData, prepareTemplate, render, run.
  destruct (parseArgs g) as [[]|o] eqn:Ea; cbn [mbind Step_bind].
  2:{ intros ->. revert Ea. unfold parseArgs. repeat case_match; congruence. }
  intros H. exfalso. revert H.
  repeat (case_match; cbn [mbind Step_bind] in *; simplify_eq; try congruence).
Qed.

(** C8, as amended. Whenever the data come from the environment, a subtree
    path raises no usage error and is ignored: the data root is the whole
    mapping that [parseEnv] builds, [getSubTree] having no part in it, and
    the run ends as it does without the subtree path. *)
Theorem subtree_is_ignored_for_environment :
  forall (os : World) (g : Flags),
    envFlag g = true -> jsonDataFile g = "" -> yamlDataFile g = "" ->
    (forall out, main os g <> Fatal out FatalUsage)
    /\ readData os g = match parseEnv_loop (Environ os) ∅ with
                       | Ret data => Continue (VMapString data)
                       | Panic e => End (Crash e)
                       end
    /\ main os g = main os (setSubtree g "").
Proof.
  intros os g He Hj Hy.
  assert (Hdata : forall g', envFlag g' = true -> jsonDataFile g' = "" -> yamlDataFile g' = "" ->
            readData os g' = match parseEnv_loop (Environ os) ∅ with
                             | Ret data => Continue (VMapString data)
                             | Panic e => End (Crash e)
                             end).
  { intros g' _ Hj' Hy'. unfold readData, parseEnv. rewrite Hj', Hy'. cbn [isSet String.eqb negb].
    destruct (parseEnv_loop (Environ os) ∅); reflexivity. }
  split; [|split].
  - intros out H. apply main_usage_error in H. revert H.
    unfold parseArgs. rewrite He, Hj, Hy. cbn.
    destruct (versionFlag g), (helpFlag g); discriminate.
  - now apply Hdata.
  - unfold main. rewrite (Hdata g He Hj Hy), (Hdata (setSubtree g "") He Hj Hy).
    reflexivity.
Qed.

Lemma subtree_is_ignored_for_environment_witness :
  main envWorld (setSubtree envFlags ".key2") = main envWorld (setSubtree (setSubtree envFlags ".key2") "").
Proof.
  apply (subtree_is_ignored_for_environment envWorld (setSubtree envFlags ".key2")).
  - reflexivity.
  - reflexivity.
  - reflexivity.
Defined.

(** C8, as stated, fails: with [--env-data --subtree .key2] the program
    raises no error and renders the template. *)
Lemma subtree_with_environment_renders :
  main envWorld (setSubtree envFlags ".key2")
    = Exit0 [WBytes "hello"; WBytes " "; WBytes "world"]
  /\ ~ exists out, main envWorld (setSubtree envFlags ".key2") = Fatal out FatalUsage.
Proof. split; [reflexivity|]. intros [out H]. discriminate. Qed.

(** ** The examples of the usage text *)

Example usage_env :
  main envWorld envFlags = Exit0 [WBytes "hello"; WBytes " "; WBytes "world"].
Proof. reflexivity. Qed.

Example usage_env_delimiters :
  main (process "(( .TEST ))" ["TEST=hi"]) (setDelimiters envFlags "((:))")
  = Exit0 [WBytes "hi"].
Proof. reflexivity. Qed.

Example usage_subtree :
  main (documentWorld "v3: {{ .first.key3 }}" basicDocument) (setSubtree yamlFlags ".key2")
  = Exit0 [WBytes "v3: "; WBytes "v3"].
Proof. reflexivity. Qed.

Example usage_yaml :
  main (documentWorld "v3: {{ .key2.first.key3 }}" basicDocument) yamlFlags
  = Exit0 [WBytes "v3: "; WBytes "v3"].
Proof. reflexivity. Qed.

Example usage_json :
  main (documentWorld "v1: {{ .key1 }}" basicDocument) jsonFlags
  = Exit0 [WBytes "v1: "; WBytes "v1"].
Proof. reflexivity. Qed.

Example basicDocument_decoded :
  jsonValue basicDocument = basicData /\ yamlValue basicDocument = Some basicData.
Proof. split; vm_compute; reflexivity. Qed.

Example usage_no_source : main envWorld noFlags = Fatal [] FatalUsage.
Proof. reflexivity. Qed.

(** A data file that cannot be read, with a subtree path: the walk runs on
    the nil value before the error is reported. *)
Example unreadable_data_with_subtree :
  main (process "" []) (setSubtree jsonFlags ".key2")
  = Crash InterfaceConversion.
Proof. reflexivity. Qed.

(** * Further properties of the code *)

(** ** More on [strings.Split] at a one-byte separator *)

Section SplitFacts.

Lemma append_assoc_string (a b c : string) : (a +:+ b) +:+ c = a +:+ (b +:+ c).
Proof. induction a as [|x a IH]; [reflexivity | now rewrite !append_cons, IH]. Qed.

Lemma Split_no_sep s c : CountByte s c = 0 -> Split s (String c "") = [s].
Proof. intros H. unfold Split. now apply genSplit_no_sep. Qed.

(** A string that holds the byte splits at its first occurrence. *)
Lemma Split_first s c :
  CountByte s c <> 0 ->
  exists l r, s = l +:+ String c r /\ CountByte l c = 0
              /\ S (CountByte r c) = CountByte s c
              /\ Split s (String c "") = l :: Split r (String c "").
Proof.
  intros H. destruct (CountByte_Index s c H) as [m Hm].
  destruct (Index_byte_Some s c m Hm) as (Heq & Hl & _).
  exists (slice_to m s), (slice_from (S m) s).
  split; [exact Heq|]. split; [exact Hl|]. split.
  - pose proof (f_equal (fun x => CountByte x c) Heq) as Hc. cbv beta in Hc.
    rewrite CountByte_app in Hc. cbn [CountByte] in Hc.
    rewrite Ascii.eqb_refl, Hl in Hc. lia.
  - rewrite Heq at 1. now apply Split_piece.
Qed.

(** [Split] returns one piece more than there are separators. *)
Lemma Split_length s c : length (Split s (String c "")) = S (CountByte s c).
Proof.
  remember (CountByte s c) as n eqn:Hn. revert s Hn.
  induction n as [|n IH]; intros s Hn.
  - now rewrite Split_no_sep.
  - destruct (Split_first s c) as (l & r & _ & _ & Hr & ->); [lia|].
    cbn [length]. rewrite (IH r); [reflexivity | lia].
Qed.

(** [Split] distributes over a separator. *)
Lemma Split_app_sep s t c :
  Split (s +:+ String c t) (String c "")
  = Split s (String c "") ++ Split t (String c "").
Proof.
  remember (CountByte s c) as n eqn:Hn. revert s Hn.
  induction n as [|n IH]; intros s Hn.
  - rewrite (Split_no_sep s c), Split_piece; [reflexivity | easy | easy].
  - destruct (Split_first s c) as (l & r & Heq & Hl & Hr & Hs); [lia|].
    rewrite Hs. rewrite Heq at 1.
    rewrite <- (append_byte_assoc l r c), append_assoc_string, append_byte_assoc.
    rewrite (Split_piece l _ c Hl), (IH r); [reflexivity | lia].
Qed.

End SplitFacts.

(** ** The choice of the data source *)

(** X1. [countTrue] is 1 exactly when one element of the list is true and
    all the others are false. *)
Theorem countTrue_one_iff :
  forall b : list bool,
    countTrue b = 1
    <-> exists pre post, b = pre ++ true :: post
                         /\ Forall (fun x => x = false) pre
                         /\ Forall (fun x => x = false) post.
Proof.
  assert (Hzero : forall b, countTrue b = 0 <-> Forall (fun x => x = false) b).
  { induction b as [|x b IH]; cbn [countTrue].
    - split; [constructor | reflexivity].
    - destruct x; cbn [Nat.add].
      + split; [discriminate | intros H; inversion H; discriminate].
      + rewrite IH. split; [now constructor | now inversion 1]. }
  induction b as [|x b IH]; cbn [countTrue].
  - split; [discriminate | intros (pre & post & H & _); now destruct pre].
  - destruct x; cbn [Nat.add].
    + split.
      * intros [= H]. exists [], b. repeat split; [constructor | now apply Hzero].
      * intros (pre & post & H & Hpre & Hpost). destruct pre as [|y pre].
        -- injection H as ->. f_equal. now apply Hzero.
        -- injection H as <- _. inversion Hpre; discriminate.
    + rewrite IH. split.
      * intros (pre & post & -> & Hpre & Hpost).
        exists (false :: pre), post. repeat split; [now constructor | exact Hpost].
      * intros (pre & post & H & Hpre & Hpost). destruct pre as [|y pre].
        -- discriminate.
        -- injection H as <- ->. inversion Hpre; subst. now exists pre, post.
Qed.

(** What the data-source check leaves: one source, and only one. *)
Lemma parseArgs_selects g :
  parseArgs g = Continue tt ->
  (jsonDataFile g <> "" /\ yamlDataFile g = "" /\ envFlag g = false)
  \/ (jsonDataFile g = "" /\ yamlDataFile g <> "" /\ envFlag g = false)
  \/ (jsonDataFile g = "" /\ yamlDataFile g = "" /\ envFlag g = true).
Proof.
  unfold parseArgs, isSet.
  destruct (versionFlag g); [discriminate|]. destruct (helpFlag g); [discriminate|].
  destruct (String.eqb_spec (jsonDataFile g) ""), (String.eqb_spec (yamlDataFile g) ""),
    (envFlag g); cbn; try discriminate; tauto.
Qed.

(** X2. [parseArgs] lets the run go on exactly when neither [--version] nor
    [--help] is given and one data source is selected: the JSON file alone,
    the YAML file alone, or the environment alone. *)
Theorem parseArgs_continues_iff :
  forall g : Flags,
    parseArgs g = Continue tt
    <-> versionFlag g = false /\ helpFlag g = false
        /\ ((jsonDataFile g <> "" /\ yamlDataFile g = "" /\ envFlag g = false)
            \/ (jsonDataFile g = "" /\ yamlDataFile g <> "" /\ envFlag g = false)
            \/ (jsonDataFile g = "" /\ yamlDataFile g = "" /\ envFlag g = true)).
Proof.
  intros g. unfold parseArgs, isSet.
  destruct (versionFlag g); [split; [discriminate | intros [H _]; discriminate]|].
  destruct (helpFlag g); [split; [discriminate | intros (_ & H & _); discriminate]|].
  destruct (String.eqb_spec (jsonDataFile g) ""), (String.eqb_spec (yamlDataFile g) ""),
    (envFlag g); cbn; split; intros H; try discriminate; try reflexivity;
    try (repeat split; tauto);
    destruct H as (_ & _ & [(? & ? & ?) | [(? & ? & ?) | (? & ? & ?)]]);
    congruence.
Qed.

Lemma isSet_false s : isSet s = false <-> s = "".
Proof.
  unfold isSet. destruct (String.eqb_spec s ""); cbn; split; congruence.
Qed.

(** X3. Without [--env-data] the run does not depend on the environment:
    [parseEnv] is reached only when the environment is the selected
    source. *)
Theorem environment_unread_without_env_data :
  forall (os : World) (env : list string) (g : Flags),
    envFlag g = false -> main (setEnviron os env) g = main os g.
Proof.
  intros os env g He. unfold main.
  destruct (parseArgs g) as [[]|o] eqn:Ha; [|reflexivity].
  cbn [mbind Step_bind].
  change (readInput (setEnviron os env) g) with (readInput os g).
  destruct (readInput os g) as [tplStr|o]; [|reflexivity].
  cbn [mbind Step_bind].
  assert (Hd : readData (setEnviron os env) g = readData os g).
  { apply parseArgs_selects in Ha as [(Hj & _) | [(Hj & Hy & _) | (_ & _ & H)]].
    - unfold readData. now rewrite (isSet_true _ Hj).
    - unfold readData. rewrite Hj. cbn [isSet String.eqb negb]. now rewrite (isSet_true _ Hy).
    - congruence. }
  rewrite Hd. reflexivity.
Qed.

Lemma environment_unread_without_env_data_witness :
  main (setEnviron missingWorld ["broken entry"]) jsonFlags = main missingWorld jsonFlags.
Proof. apply environment_unread_without_env_data. reflexivity. Defined.

(** X4. With [--env-data] and the template on standard input, no file is
    opened for reading: two runs with the same flags end alike as soon as
    standard input and the environment are the same and the output file
    named by [-o] can be created in both or in neither. *)
Theorem no_file_opened_with_env_data :
  forall (os os' : World) (g : Flags),
    envFlag g = true -> inputFile g = "" \/ inputFile g = "-" ->
    Stdin os' = Stdin os -> Environ os' = Environ os ->
    Create os' (outputFile g) = Create os (outputFile g) ->
    main os' g = main os g.
Proof.
  intros os os' g He Hin Hstdin Henv Hcreate. unfold main.
  destruct (parseArgs g) as [[]|o] eqn:Ha; [|reflexivity].
  cbn [mbind Step_bind].
  apply parseArgs_selects in Ha as [(_ & _ & H) | [(_ & _ & H) | (Hj & Hy & _)]];
    try congruence.
  assert (Hi : readInput os' g = readInput os g).
  { unfold readInput. destruct Hin as [-> | ->]; cbn [isSet String.eqb negb andb];
      now rewrite Hstdin. }
  assert (Hd : readData os' g = readData os g).
  { unfold readData, parseEnv. rewrite Hj, Hy, Henv. reflexivity. }
  assert (Hr : forall tpl tplStr data,
             render os' g tpl tplStr data = render os g tpl tplStr data).
  { intros tpl tplStr data. unfold render. now rewrite Hcreate. }
  rewrite Hi, Hd.
  destruct (readInput os g) as [tplStr|o]; [|reflexivity]. cbn [mbind Step_bind].
  destruct (readData os g) as [data|o]; [|reflexivity]. cbn [mbind Step_bind].
  destruct (prepareTemplate g) as [tpl|o]; [|reflexivity]. cbn [mbind Step_bind].
  now rewrite Hr.
Qed.

Lemma no_file_opened_with_env_data_witness :
  main (setOpen envWorld (Open missingWorld)) (setOutputFile envFlags "out.txt")
  = main envWorld (setOutputFile envFlags "out.txt").
Proof.
  apply no_file_opened_with_env_data.
  - reflexivity.
  - left. reflexivity.
  - reflexivity.
  - reflexivity.
  - reflexivity.
Defined.

(** ** The three revisions *)

Lemma readData_previous_same os g :
  subtree g = "" -> readData os g = readData_previous os g.
Proof.
  intros Hs. unfold readData, readData_previous. rewrite Hs. cbn [isSet String.eqb negb].
  destruct (isSet (jsonDataFile g)).
  - now destruct (parseJSON os (jsonDataFile g)).
  - destruct (isSet (yamlDataFile g)); [|reflexivity].
    now destruct (parseYAML os (yamlDataFile g)).
Qed.

(** X5. The latest revision behaves as the previous one when neither
    [--subtree] nor [--delimiters] is given: every run ends the same way
    with the same output.  ([--help] is left out: the usage text it prints
    is that of the revision.) *)
Theorem main_extends_previous_revision :
  forall (os : World) (g : Flags),
    helpFlag g = false ->
    subtree g = "" -> delimiters g = "" -> main os g = main_previous os g.
Proof.
  intros os g _ Hs Hd. unfold main, main_previous.
  now rewrite (readData_previous_same os g Hs), (prepareTemplate_previous_same g Hd).
Qed.

Lemma main_extends_previous_revision_witness :
  main missingWorld (setStrict jsonFlags true)
  = main_previous missingWorld (setStrict jsonFlags true).
Proof. apply main_extends_previous_revision; reflexivity. Defined.

(** X6. The revision with [--env-data] and [--strict] behaves as the first
    one when neither flag is given and one of the two data files is:
    [countTrue] on the three sources is then the test on the two file
    names, the data branch is the same, and [missingkey=default] leaves the
    template as [template.New] makes it.  ([--help] and the usage error are
    left out: their texts are those of the revision.) *)
Theorem main_previous_extends_first_revision :
  forall (os : World) (g : Flags),
    helpFlag g = false ->
    envFlag g = false -> strictFlag g = false ->
    xorb (isSet (jsonDataFile g)) (isSet (yamlDataFile g)) = true ->
    main_previous os g = main_first os g.
Proof.
  intros os g _ He Hst Hone. unfold main_previous, main_first, parseArgs, parseArgs_first,
    readData_previous, readData_first.
  rewrite He, Hst.
  destruct (versionFlag g); [reflexivity|].
  destruct (helpFlag g); [reflexivity|].
  destruct (isSet (jsonDataFile g)), (isSet (yamlDataFile g)); try discriminate;
    cbn [countTrue Nat.add Nat.eqb negb andb orb mbind Step_bind]; reflexivity.
Qed.

Lemma main_previous_extends_first_revision_witness :
  main_previous missingWorld jsonFlags = main_first missingWorld jsonFlags.
Proof. apply main_previous_extends_first_revision; reflexivity. Defined.

(** ** More on subtree navigation *)

Lemma getSubTree_loop_app st1 st2 data :
  getSubTree_loop (st1 ++ st2) data
  = bindRun (getSubTree_loop st1 data) (getSubTree_loop st2).
Proof.
  revert data; induction st1 as [|k st1 IH]; intros data; [reflexivity|].
  cbn [app getSubTree_loop]. destruct data; try reflexivity. apply IH.
Qed.

Lemma pathSegments_app p rest :
  pathSegments (p +:+ String "." rest) = pathSegments p ++ pathSegments (String "." rest).
Proof.
  unfold pathSegments. rewrite Split_app_sep, Split_leading_sep. cbn [tail].
  pose proof (Split_length p ".") as Hlen.
  destruct (Split p ".") as [|x l]; [discriminate | reflexivity].
Qed.

Lemma pathSegments_no_dot s : CountByte s "." = 0 -> pathSegments s = [].
Proof. intros H. unfold pathSegments. now rewrite (Split_no_sep _ _ H). Qed.

(** X7. A subtree path without any [.] selects nothing: [getSubTree]
    returns the data as they are, whatever they are. *)
Theorem getSubTree_without_dot_is_identity :
  forall (g : Flags) (data : Value) (p : string),
    CountByte (subtree g) "." = 0 -> getSubTree g data p = Ret data.
Proof.
  intros g data p H. unfold getSubTree.
  now rewrite (pathSegments_no_dot _ H).
Qed.

Lemma getSubTree_without_dot_is_identity_witness :
  getSubTree (setSubtree noFlags "key2") basicData "key2" = Ret basicData.
Proof. apply getSubTree_without_dot_is_identity. reflexivity. Defined.

(** X8. Navigation composes along a path: walking [p.rest] is walking [p]
    and then [.rest] from where that arrives, a panic of the first walk
    being the panic of the whole. *)
Theorem getSubTree_composes :
  forall (g : Flags) (data : Value) (p rest x : string),
    getSubTree (setSubtree g (p +:+ String "." rest)) data x
    = bindRun (getSubTree (setSubtree g p) data x)
              (fun data' => getSubTree (setSubtree g (String "." rest)) data' x).
Proof.
  intros g data p rest x. unfold getSubTree. cbn [subtree setSubtree].
  now rewrite pathSegments_app, getSubTree_loop_app.
Qed.

(** X9. A key that is absent at the last segment is not an error: when the
    segments before the last lead to a mapping without the last one,
    [getSubTree] returns the nil value. *)
Theorem getSubTree_absent_last_key_is_nil :
  forall (g : Flags) (data : Value) (p : string) (pre : list string) (k : string)
         (m : gmap string Value),
    pathSegments (subtree g) = pre ++ [k] ->
    descend data pre = Some (VMap m) ->
    m !! k = None ->
    getSubTree g data p = Ret VNil.
Proof.
  intros g data p pre k m Hseg Hpre Hk. unfold getSubTree.
  rewrite Hseg, getSubTree_loop_app, (getSubTree_loop_descend _ _ _ Hpre).
  cbn [bindRun getSubTree_loop]. now rewrite Hk.
Qed.

Lemma getSubTree_absent_last_key_is_nil_witness :
  getSubTree (setSubtree noFlags ".key2.second") basicData "" = Ret VNil.
Proof.
  apply (getSubTree_absent_last_key_is_nil _ _ _ ["key2"] "second"
           {[ "first" := VMap {[ "key3" := VString "v3" ]} ]}); reflexivity.
Defined.

(** X10. A segment asked of a value that is not a mapping stops the
    program: when the segments before it lead to a string, a number, a
    sequence or the nil value, [getSubTree] panics. *)
Theorem getSubTree_panics_at_non_mapping :
  forall (g : Flags) (data : Value) (p : string) (pre post : list string) (k : string)
         (v : Value),
    pathSegments (subtree g) = pre ++ k :: post ->
    descend data pre = Some v ->
    (forall m, v <> VMap m) ->
    getSubTree g data p = Panic InterfaceConversion.
Proof.
  intros g data p pre post k v Hseg Hpre Hv. unfold getSubTree.
  rewrite Hseg, getSubTree_loop_app, (getSubTree_loop_descend _ _ _ Hpre).
  cbn [bindRun]. now apply getSubTree_loop_not_map.
Qed.

Lemma getSubTree_panics_at_non_mapping_witness :
  getSubTree (setSubtree noFlags ".key1.x.y") basicData "" = Panic InterfaceConversion.
Proof.
  apply (getSubTree_panics_at_non_mapping _ _ _ ["key1"] ["y"] "x" (VString "v1"));
    [reflexivity | reflexivity | discriminate].
Defined.

(** X11. An absent key before the last segment stops the program too: the
    nil value it leaves is asked the next segment. *)
Theorem getSubTree_panics_after_absent_key :
  forall (g : Flags) (data : Value) (p : string) (pre post : list string) (k k' : string)
         (m : gmap string Value),
    pathSegments (subtree g) = pre ++ k :: k' :: post ->
    descend data pre = Some (VMap m) ->
    m !! k = None ->
    getSubTree g data p = Panic InterfaceConversion.
Proof.
  intros g data p pre post k k' m Hseg Hpre Hk. unfold getSubTree.
  rewrite Hseg, getSubTree_loop_app, (getSubTree_loop_descend _ _ _ Hpre).
  cbn [bindRun]. now apply getSubTree_loop_absent.
Qed.

Lemma getSubTree_panics_after_absent_key_witness :
  getSubTree (setSubtree noFlags ".key2.second.key3") basicData "" = Panic InterfaceConversion.
Proof.
  apply (getSubTree_panics_after_absent_key _ _ _ ["key2"] [] "second" "key3"
           {[ "first" := VMap {[ "key3" := VString "v3" ]} ]}); reflexivity.
Defined.

Lemma evalFieldChain_descend mk segments : forall data v ident,
  descend data segments = Some v -> v <> VNil ->
  evalFieldChain mk (Some data) (segments ++ ident) = evalFieldChain mk (ValueOf v) ident.
Proof.
  induction segments as [|k segments IH]; intros data v ident Hd Hv.
  - injection Hd as ->. destruct v; try reflexivity. now destruct Hv.
  - cbn [descend] in Hd. destruct data; try discriminate.
    destruct (m !! k) as [v'|] eqn:E; [|discriminate].
    cbn [app evalFieldChain evalField]. rewrite E. now apply IH.
Qed.

(** X12. Narrowing the data to a subtree and rendering a template goes as
    rendering, against the whole data, the template whose field chains are
    prefixed with the segments of the path, provided the path leads through
    mappings to a value that is not nil: the two runs write the same, and
    both complete or both stop at the same action with an error of the same
    kind for the same key or field.  The messages need not be the same: a
    field asked of a string is reported [in type string] in one run and
    [in type interface {}] in the other. *)
Theorem subtree_is_a_chain_prefix :
  forall (g : Flags) (data v : Value) (p : string) (mk : missingKeyAction)
         (nodes : list Node),
    descend data (pathSegments (subtree g)) = Some v ->
    v <> VNil ->
    getSubTree g data p = Ret v
    /\ walk mk (ValueOf v) nodes []
       = walk mk (ValueOf data) (map (prefixed (pathSegments (subtree g))) nodes) [].
Proof.
  intros g data v p mk nodes Hd Hv. split.
  { unfold getSubTree. now apply getSubTree_loop_descend. }
  destruct (pathSegments (subtree g)) as [|s segments] eqn:Hseg.
  { injection Hd as ->. f_equal. clear. induction nodes as [|[] nodes IH]; cbn; now f_equal. }
  assert (Hroot : ValueOf data = Some data).
  { cbn [descend] in Hd. now destruct data. }
  rewrite Hroot. generalize (@nil Written).
  induction nodes as [|node nodes IH]; intros wr; [reflexivity|].
  destruct node as [text|field more]; cbn [map prefixed walk]; [apply IH|].
  change (s :: segments ++ field :: more) with ((s :: segments) ++ field :: more).
  rewrite (evalFieldChain_descend mk _ _ _ (field :: more) Hd Hv).
  destruct (evalFieldChain mk (ValueOf v) (field :: more)); [reflexivity | apply IH].
Qed.

Lemma subtree_is_a_chain_prefix_witness :
  getSubTree (setSubtree noFlags ".key2") basicData "" 
  = Ret (VMap {[ "first" := VMap {[ "key3" := VString "v3" ]} ]})
  /\ walk mapInvalid (ValueOf (VMap {[ "first" := VMap {[ "key3" := VString "v3" ]} ]}))
          [TextNode "v3: "; ActionNode "first" ["key3"]] []
     = walk mapInvalid (ValueOf basicData)
          (map (prefixed (pathSegments (subtree (setSubtree noFlags ".key2"))))
               [TextNode "v3: "; ActionNode "first" ["key3"]]) [].
Proof.
  apply (subtree_is_a_chain_prefix (setSubtree noFlags ".key2") basicData).
  - reflexivity.
  - discriminate.
Defined.

(** ** More on the environment *)

Section Environment.

Lemma Split_two_pieces v c :
  CountByte v c <> 0 ->
  exists name value rest, Split v (String c "") = name :: value :: rest.
Proof.
  intros H. destruct (Split_first v c H) as (l & r & _ & _ & _ & ->).
  pose proof (Split_length r c) as Hlen.
  destruct (Split r (String c "")) as [|value rest]; [discriminate|].
  now exists l, value, rest.
Qed.

Lemma parseEnv_loop_total env : forall data,
  Forall (fun v => CountByte v "=" <> 0) env -> exists m, parseEnv_loop env data = Ret m.
Proof.
  induction env as [|v env IH]; intros data Hall; [now exists data|].
  inversion Hall as [|? ? Hv Henv]; subst. cbn [parseEnv_loop].
  destruct (Split_two_pieces v "=" Hv) as (name & value & rest & ->).
  cbn [lookup list_lookup]. now apply IH.
Qed.

Lemma parseEnv_loop_panics env : forall data,
  Exists (fun v => CountByte v "=" = 0) env -> parseEnv_loop env data = Panic IndexOutOfRange.
Proof.
  induction env as [|v env IH]; intros data Hex; [inversion Hex|].
  cbn [parseEnv_loop]. destruct (Nat.eq_dec (CountByte v "=") 0) as [Hz|Hnz].
  - now rewrite (Split_no_sep v "=" Hz).
  - destruct (Split_two_pieces v "=" Hnz) as (name & value & rest & ->).
    cbn [lookup list_lookup]. apply IH. inversion Hex; [contradiction | assumption].
Qed.

Lemma entries_with_or_without_equals (env : list string) :
  Forall (fun v => CountByte v "=" <> 0) env \/ Exists (fun v => CountByte v "=" = 0) env.
Proof.
  induction env as [|v env [IH|IH]].
  - left. constructor.
  - destruct (Nat.eq_dec (CountByte v "=") 0); [right; now left | left; now constructor].
  - right. now right.
Qed.

Lemma parseEnv_loop_pairs pairs : forall data,
  Forall plainPair pairs ->
  parseEnv_loop (map entry pairs) data
  = Ret (fold_left (fun m kv => <[fst kv := snd kv]> m) pairs data).
Proof.
  induction pairs as [|[n v] pairs IH]; intros data Hall; [reflexivity|].
  inversion Hall as [|? ? [Hn Hv] Hps]; subst. cbn [map fold_left fst snd] in *.
  unfold entry at 1. cbn [fst snd]. rewrite (parseEnv_loop_plain n v _ _ Hn Hv).
  now apply IH.
Qed.

Lemma fold_insert_distinct pairs name value :
  distinctNames pairs ->
  forall data : gmap string string,
    fold_left (fun m kv => <[fst kv := snd kv]> m) pairs data !! name = Some value
    <-> In (name, value) pairs
        \/ (~ In name (map fst pairs) /\ data !! name = Some value).
Proof.
  unfold distinctNames. induction pairs as [|[n v] pairs IH]; intros Hnd data.
  - cbn [fold_left map In]. tauto.
  - cbn [map fst] in Hnd. inversion Hnd as [|? ? Hn Hnd']; subst.
    cbn [fold_left map In fst snd]. rewrite (IH Hnd'), lookup_insert_Some. split.
    + intros [Hin | (Hout & [[-> ->] | [Hne Hd]])].
      * left. now right.
      * left. now left.
      * right. split; [|assumption]. intros [H|H]; [now apply Hne | now apply Hout].
    + intros [[[= -> ->] | Hin] | (Hout & Hd)].
      * right. split; [assumption|]. now left.
      * now left.
      * right. split; [tauto|]. right. split; [|assumption]. intros ->. tauto.
Qed.

End Environment.

(** X13. [parseEnv] stops the program with an index out of range exactly
    when some entry of the environment holds no [=]; otherwise it returns a
    [map[string]string] and no error. *)
Theorem parseEnv_panics_iff_entry_without_equals :
  forall os : World,
    (parseEnv os = Panic IndexOutOfRange
     <-> Exists (fun v => CountByte v "=" = 0) (Environ os))
    /\ ((exists m, parseEnv os = Ret (VMapString m, None))
        <-> Forall (fun v => CountByte v "=" <> 0) (Environ os)).
Proof.
  intros os. unfold parseEnv.
  destruct (entries_with_or_without_equals (Environ os)) as [Hall|Hex].
  - destruct (parseEnv_loop_total _ ∅ Hall) as [m Hm]. rewrite Hm. cbn [bindRun].
    split; split; try discriminate; try (intros _; assumption).
    + intros Hex. apply Exists_exists in Hex as (v & Hin & Hv).
      rewrite Forall_forall in Hall. now destruct (Hall v Hin).
    + intros _. now exists m.
  - rewrite (parseEnv_loop_panics _ ∅ Hex). cbn [bindRun].
    split; split; try reflexivity; try (intros _; assumption).
    + intros [m H]. discriminate.
    + intros Hall. apply Exists_exists in Hex as (v & Hin & Hv).
      rewrite Forall_forall in Hall. now destruct (Hall v Hin).
Qed.

(** X14. [parseEnv] reads back the pairs an environment is made of: when
    the entries are [name=value] with no [=] in the names and the values,
    and no name has two entries, as in what [os.Environ()] returns, the
    mapping it returns binds a name to a value exactly when the pair is
    among them. *)
Theorem parseEnv_reads_back_pairs :
  forall (os : World) (pairs : list (string * string)),
    Environ os = map entry pairs ->
    Forall plainPair pairs ->
    distinctNames pairs ->
    exists m, parseEnv os = Ret (VMapString m, None)
              /\ forall name value, m !! name = Some value <-> In (name, value) pairs.
Proof.
  intros os pairs Henv Hall Hnd. unfold parseEnv.
  rewrite Henv, (parseEnv_loop_pairs pairs ∅ Hall). cbn [bindRun].
  eexists; split; [reflexivity|]. intros name value.
  rewrite (fold_insert_distinct pairs name value Hnd ∅), lookup_empty. split.
  - intros [Hin | [_ H]]; [assumption | discriminate].
  - intros Hin. now left.
Qed.

Lemma parseEnv_reads_back_pairs_witness :
  exists m, parseEnv (process "" ["TEST=hello"; "EMPTY="; "HOME=/root"])
            = Ret (VMapString m, None)
            /\ forall name value,
                 m !! name = Some value
                 <-> In (name, value) [("TEST", "hello"); ("EMPTY", ""); ("HOME", "/root")].
Proof.
  apply (parseEnv_reads_back_pairs (process "" ["TEST=hello"; "EMPTY="; "HOME=/root"])
           [("TEST", "hello"); ("EMPTY", ""); ("HOME", "/root")]).
  - reflexivity.
  - repeat constructor.
  - unfold distinctNames. cbn [map fst].
    repeat constructor; cbn [In]; intuition discriminate.
Defined.

(** X15. Whatever follows a second [=] in an entry is lost: an entry
    [name=v1=v2] binds [name] to [v1] alone, for every [v2]. *)
Theorem parseEnv_drops_after_second_equals :
  forall (name v1 v2 : string) (env : list string) (data : gmap string string),
    CountByte name "=" = 0 -> CountByte v1 "=" = 0 ->
    parseEnv_loop ((name +:+ String "=" (v1 +:+ String "=" v2)) :: env) data
    = parseEnv_loop ((name +:+ String "=" v1) :: env) data.
Proof.
  intros name v1 v2 env data Hn Hv.
  now rewrite (parseEnv_loop_cut name v1 v2 env data Hn Hv),
              (parseEnv_loop_plain name v1 env data Hn Hv).
Qed.

Lemma parseEnv_drops_after_second_equals_witness :
  parseEnv_loop ["OPTS=-Dkey=value=more"] ∅ = parseEnv_loop ["OPTS=-Dkey"] ∅.
Proof.
  apply (parseEnv_drops_after_second_equals "OPTS" "-Dkey" "value=more" [] ∅); reflexivity.
Defined.

(** ** More on the preparation of the template *)

(** The only way the preparation ends the run is the error of the
    delimiter check: the option given to [Option] is one it knows, and
    [d[1]] is indexed only after the check has found one [:]. *)
Lemma prepareTemplate_End g o :
  prepareTemplate g = End o -> o = Fatal [] FatalDelimiters.
Proof.
  destruct (isSet (delimiters g)) eqn:Hset.
  - destruct (prepareTemplate_unfold g Hset) as (tpl & _ & ->).
    destruct (rejected (delimiters g)) eqn:Hrej; [now intros [= <-]|].
    assert (Hne : delimiters g <> "").
    { intros H. apply isSet_false in H. congruence. }
    destruct (accepted_delimiterSpec _ Hne Hrej) as (l & r & Hspec).
    destruct (delimiterSpec_accepted _ l r Hspec) as [_ ->]. discriminate.
  - unfold prepareTemplate. rewrite Hset. destruct (strictFlag g); discriminate.
Qed.

(** X16. The preparation of the template never crashes: it ends with the
    template or with the error of the delimiter check. *)
Theorem prepareTemplate_never_panics :
  forall g : Flags,
    (exists tpl, prepareTemplate g = Continue tpl)
    \/ prepareTemplate g = End (Fatal [] FatalDelimiters).
Proof.
  intros g. destruct (prepareTemplate g) as [tpl|o] eqn:E.
  - left. now exists tpl.
  - right. f_equal. now apply (prepareTemplate_End g).
Qed.

(** X17. The delimiters in force after the preparation are the two sides
    of the specification, which they give back when joined by [:]; without
    a specification they are [{{] and [}}]. *)
Theorem prepared_delimiters_give_back_the_specification :
  forall (g : Flags) (tpl : Template),
    prepareTemplate g = Continue tpl ->
    if isSet (delimiters g)
    then delimiters g = activeLeft tpl +:+ ":" +:+ activeRight tpl
    else activeLeft tpl = "{{" /\ activeRight tpl = "}}".
Proof.
  intros g tpl Hprep. destruct (isSet (delimiters g)) eqn:Hset.
  - destruct (prepareTemplate_unfold g Hset) as (tpl0 & _ & Hun). rewrite Hun in Hprep.
    destruct (rejected (delimiters g)) eqn:Hrej; [discriminate|].
    assert (Hne : delimiters g <> "").
    { intros H. apply isSet_false in H. congruence. }
    destruct (accepted_delimiterSpec _ Hne Hrej) as (l & r & Hspec).
    destruct (delimiterSpec_accepted _ l r Hspec) as [_ Hsplit].
    rewrite Hsplit in Hprep. injection Hprep as <-.
    destruct Hspec as (Heq & _ & _ & Hl & Hr).
    unfold activeLeft, activeRight. cbn [leftDelim rightDelim Delims].
    destruct l; [congruence|]. destruct r; [congruence|]. exact Heq.
  - revert Hprep. unfold prepareTemplate. rewrite Hset.
    destruct (strictFlag g); intros [= <-]; split; reflexivity.
Qed.

Lemma prepared_delimiters_give_back_the_specification_witness :
  exists tpl, prepareTemplate (setDelimiters noFlags "<%:%>") = Continue tpl
              /\ "<%:%>" = activeLeft tpl +:+ ":" +:+ activeRight tpl.
Proof.
  eexists. split; [reflexivity|].
  apply (prepared_delimiters_give_back_the_specification (setDelimiters noFlags "<%:%>")).
  reflexivity.
Defined.

(** ** More on [main] *)

Section Main.

(** The steps of [main], one after the other. *)
Lemma main_cases os g o :
  main os g = o ->
  parseArgs g = End o
  \/ (parseArgs g = Continue tt
      /\ (readInput os g = End o
          \/ exists tplStr, readInput os g = Continue tplStr
             /\ (readData os g = End o
                 \/ exists data, readData os g = Continue data
                    /\ (prepareTemplate g = End o
                        \/ exists tpl, prepareTemplate g = Continue tpl
                           /\ render os g tpl tplStr data = o)))).
Proof.
  unfold main. intros H.
  destruct (parseArgs g) as [[]|o1]; cbn [mbind Step_bind] in H; [|subst; now left].
  right. split; [reflexivity|].
  destruct (readInput os g) as [tplStr|o1]; cbn [mbind Step_bind] in H; [|subst; now left].
  right. exists tplStr. split; [reflexivity|].
  destruct (readData os g) as [data|o1]; cbn [mbind Step_bind] in H; [|subst; now left].
  right. exists data. split; [reflexivity|].
  destruct (prepareTemplate g) as [tpl|o1]; cbn [mbind Step_bind] in H; [|subst; now left].
  right. exists tpl. now split.
Qed.

Lemma parseArgs_writes_nothing g out e : parseArgs g = End (Fatal out e) -> out = [].
Proof. unfold parseArgs. repeat case_match; congruence. Qed.

Lemma readInput_writes_nothing os g out e : readInput os g = End (Fatal out e) -> out = [].
Proof.
  unfold readInput. repeat (case_match; cbn [mbind Step_bind] in *); congruence.
Qed.

Lemma readData_writes_nothing os g out e : readData os g = End (Fatal out e) -> out = [].
Proof.
  unfold readData, run.
  repeat (case_match; cbn [mbind Step_bind] in *; simplify_eq); congruence.
Qed.

Lemma prepareTemplate_writes_nothing g out e :
  prepareTemplate g = End (Fatal out e) -> out = [].
Proof.
  intros H. apply prepareTemplate_End in H. congruence.
Qed.

Lemma parse_error_nil os p :
  (snd (parseJSON os p) <> None -> fst (parseJSON os p) = VNil)
  /\ (snd (parseYAML os p) <> None -> fst (parseYAML os p) = VNil).
Proof.
  unfold parseJSON, parseYAML. split; repeat case_match; cbn; congruence.
Qed.

Lemma pathSegments_dotted s :
  CountByte s "." <> 0 -> exists k st, pathSegments s = k :: st.
Proof.
  intros H. unfold pathSegments.
  destruct (Split_two_pieces s "." H) as (x & k & st & ->). now exists k, st.
Qed.

End Main.

(** X18. Output is written by the rendering alone: a run that ends with any
    other error has written nothing. *)
Theorem only_rendering_writes :
  forall (os : World) (g : Flags) (out : list Written) (e : FatalError),
    main os g = Fatal out e ->
    out = [] \/ exists err, e = FatalRender err.
Proof.
  intros os g out e H.
  apply main_cases in H
    as [H | (_ & [H | (tplStr & _ & [H | (data & _ & [H | (tpl & _ & H)])])])].
  - left. now apply parseArgs_writes_nothing in H.
  - left. now apply readInput_writes_nothing in H.
  - left. now apply readData_writes_nothing in H.
  - left. now apply prepareTemplate_writes_nothing in H.
  - revert H. unfold render. repeat case_match; intros [= <- <-]; eauto.
Qed.

Lemma only_rendering_writes_witness :
  [WBytes "v1: "] = [] \/ exists err, FatalRender (MapHasNoEntry "missing") = FatalRender err.
Proof.
  apply (only_rendering_writes (documentWorld "v1: {{ .missing }}" (DObject []))
           (setStrict jsonFlags true)).
  reflexivity.
Defined.

(** X19. A data file that cannot be opened or decoded is not reported when
    a subtree path with a [.] is given: the walk runs first, on the nil
    value, and the program crashes. *)
Theorem failed_data_file_with_subtree_crashes :
  forall (os : World) (g : Flags) (tplStr : string),
    parseArgs g = Continue tt ->
    readInput os g = Continue tplStr ->
    envFlag g = false ->
    snd (if isSet (jsonDataFile g) then parseJSON os (jsonDataFile g)
         else parseYAML os (yamlDataFile g)) <> None ->
    CountByte (subtree g) "." <> 0 ->
    main os g = Crash InterfaceConversion.
Proof.
  intros os g tplStr Ha Hi He Herr Hdot.
  assert (Hset : isSet (subtree g) = true).
  { apply isSet_true. intros H. rewrite H in Hdot. now apply Hdot. }
  destruct (pathSegments_dotted _ Hdot) as (k & st & Hseg).
  assert (Hd : readData os g = End (Crash InterfaceConversion)).
  { unfold readData. rewrite Hset.
    apply parseArgs_selects in Ha
      as [(Hj & _) | [(Hj & Hy & _) | (_ & _ & H)]]; [| |congruence].
    - rewrite (isSet_true _ Hj) in *.
      pose proof (proj1 (parse_error_nil os (jsonDataFile g)) Herr) as Hnil.
      destruct (parseJSON os (jsonDataFile g)) as [data err]. cbn [fst] in Hnil. subst data.
      unfold getSubTree. now rewrite Hseg.
    - rewrite Hj in *. cbn [isSet String.eqb negb] in *. rewrite (isSet_true _ Hy).
      pose proof (proj2 (parse_error_nil os (yamlDataFile g)) Herr) as Hnil.
      destruct (parseYAML os (yamlDataFile g)) as [data err]. cbn [fst] in Hnil. subst data.
      unfold getSubTree. now rewrite Hseg. }
  unfold main. now rewrite Ha, Hi, Hd.
Qed.

Lemma failed_data_file_with_subtree_crashes_witness :
  main (process "{{ .first }}" []) (setSubtree yamlFlags ".key2") = Crash InterfaceConversion.
Proof.
  apply (failed_data_file_with_subtree_crashes _ _ "{{ .first }}").
  - reflexivity.
  - reflexivity.
  - reflexivity.
  - discriminate.
  - discriminate.
Defined.

(** ** The two policies in [main] *)

Section Policies.

Lemma evalFieldChain_error_to_default ident : forall receiver v,
  evalFieldChain mapError receiver ident = inr v ->
  evalFieldChain mapInvalid receiver ident = inr v.
Proof.
  induction ident as [|k ident IH]; intros receiver v; [easy|].
  destruct receiver as [[]|]; cbn [evalFieldChain evalField]; try discriminate;
    destruct (m !! k); try discriminate; apply IH.
Qed.

Lemma walk_error_to_default dot nodes : forall wr wr',
  walk mapError dot nodes wr = Done wr' -> walk mapInvalid dot nodes wr = Done wr'.
Proof.
  induction nodes as [|[text|field more] nodes IH]; intros wr wr'; cbn [walk].
  - easy.
  - apply IH.
  - destruct (evalFieldChain mapError dot (field :: more)) as [e|v] eqn:E; [discriminate|].
    rewrite (evalFieldChain_error_to_default _ _ _ E). apply IH.
Qed.

Lemma evalFieldChain_default_error ident : forall receiver e key,
  evalFieldChain mapInvalid receiver ident = inl e -> ~ reportsMissing key e.
Proof.
  induction ident as [|k ident IH]; intros receiver e key; [discriminate|].
  destruct receiver as [[]|]; cbn [evalFieldChain evalField];
    try (intros [= <-] [H|H]; discriminate);
    try (destruct (m !! k)); apply IH.
Qed.

Lemma walk_default_error dot nodes : forall wr wr' e key,
  walk mapInvalid dot nodes wr = Failed wr' e -> ~ reportsMissing key e.
Proof.
  induction nodes as [|[text|field more] nodes IH]; intros wr wr' e key; cbn [walk].
  - discriminate.
  - apply IH.
  - destruct (evalFieldChain mapInvalid dot (field :: more)) as [e'|v] eqn:E.
    + intros [= _ <-]. now apply (evalFieldChain_default_error _ _ _ _ E).
    + apply IH.
Qed.

(** The strict flag sets the policy and nothing else, in both directions. *)
Lemma prepareTemplate_strict_lenient g tpl :
  prepareTemplate (setStrict g true) = Continue tpl ->
  missingKey tpl = mapError
  /\ prepareTemplate (setStrict g false)
     = Continue {| leftDelim := leftDelim tpl; rightDelim := rightDelim tpl;
                   missingKey := mapInvalid; Tree := Tree tpl |}.
Proof.
  unfold prepareTemplate. cbn.
  destruct (isSet (delimiters g)); [|now intros [= <-]].
  destruct (rejected (delimiters g)); [now intros|].
  destruct (_ !! 0); [|now intros].
  destruct (_ !! 1); [|now intros].
  now intros [= <-].
Qed.

End Policies.

(** X20. Strictness only turns runs into failures: when the run with
    [--strict] ends well, the run without it ends well with the same
    output. *)
Theorem strict_success_is_default_success :
  forall (os : World) (g : Flags) (out : list Written),
    main os (setStrict g true) = Exit0 out ->
    main os (setStrict g false) = Exit0 out.
Proof.
  intros os g out H.
  apply main_cases in H
    as [H | (Ha & [H | (tplStr & Hi & [H | (data & Hd & [H | (tpl & Hp & H)])])])].
  - revert H. unfold parseArgs. repeat case_match; discriminate.
  - revert H. unfold readInput. repeat (case_match; cbn [mbind Step_bind]); discriminate.
  - revert H. unfold readData, run.
    repeat (case_match; cbn [mbind Step_bind] in *; simplify_eq); discriminate.
  - apply prepareTemplate_End in H. discriminate.
  - destruct (prepareTemplate_strict_lenient g tpl Hp) as [Hmk Hlen].
    set (tpl' := {| leftDelim := leftDelim tpl; rightDelim := rightDelim tpl;
                    missingKey := mapInvalid; Tree := Tree tpl |}) in *.
    unfold main.
    change (parseArgs (setStrict g false)) with (parseArgs (setStrict g true)).
    change (readInput os (setStrict g false)) with (readInput os (setStrict g true)).
    change (readData os (setStrict g false)) with (readData os (setStrict g true)).
    rewrite Ha, Hi, Hd, Hlen. cbn [mbind Step_bind].
    revert H. unfold render. cbn [outputFile setStrict].
    destruct (Parse tpl tplStr) as [t| |] eqn:Hparse; try discriminate.
    destruct (Parse_same_delimiters tpl tpl' tplStr t eq_refl eq_refl Hparse)
      as (nodes & Hnodes & ->).
    destruct (_ && _); [discriminate|].
    unfold Execute. rewrite Hnodes, (Parse_missingKey _ _ _ Hparse), Hmk.
    cbn [Tree withTree missingKey tpl'].
    destruct (walk mapError _ _ _) as [wr|wr e] eqn:Hw; [|discriminate].
    intros [= <-]. now rewrite (walk_error_to_default _ _ _ _ Hw).
Qed.

Lemma strict_success_is_default_success_witness :
  main (documentWorld "v3: {{ .key2.first.key3 }}" basicDocument) (setStrict yamlFlags false)
  = Exit0 [WBytes "v3: "; WBytes "v3"].
Proof. apply strict_success_is_default_success. reflexivity. Defined.

(** X21. Without [--strict] a missing key is never an error: a rendering
    error of such a run reports no missing key. *)
Theorem default_policy_reports_no_missing_key :
  forall (os : World) (g : Flags) (out : list Written) (e : ExecError) (key : string),
    strictFlag g = false ->
    main os g = Fatal out (FatalRender e) ->
    ~ reportsMissing key e.
Proof.
  intros os g out e key Hst H.
  apply main_cases in H
    as [H | (Ha & [H | (tplStr & Hi & [H | (data & Hd & [H | (tpl & Hp & H)])])])].
  - revert H. unfold parseArgs. repeat case_match; discriminate.
  - revert H. unfold readInput. repeat (case_match; cbn [mbind Step_bind]); discriminate.
  - revert H. unfold readData, run.
    repeat (case_match; cbn [mbind Step_bind] in *; simplify_eq); discriminate.
  - apply prepareTemplate_End in H. discriminate.
  - pose proof (prepareTemplate_missingKey g tpl Hp) as Hmk. rewrite Hst in Hmk.
    revert H. unfold render.
    destruct (Parse tpl tplStr) as [t| |] eqn:Hparse; try discriminate.
    destruct (_ && _); [discriminate|].
    unfold Execute. rewrite (Parse_missingKey _ _ _ Hparse), Hmk.
    destruct (Tree t) as [nodes|].
    + destruct (walk mapInvalid _ _ _) as [wr|wr e'] eqn:Hw; [discriminate|].
      intros [= _ <-]. now apply (walk_default_error _ _ _ _ _ key Hw).
    + intros [= _ <-] [Hk|Hk]; discriminate.
Qed.

Lemma default_policy_reports_no_missing_key_witness :
  ~ reportsMissing "missing" (CantEvaluateField "missing").
Proof.
  apply (default_policy_reports_no_missing_key
           (documentWorld "{{ .key1.missing }}" basicDocument) jsonFlags []).
  - reflexivity.
  - reflexivity.
Defined.

(** ** The data file in [main] *)

(** X22. The JSON and the YAML source are interchangeable in the whole run:
    when the two files hold the same document, valid for both decoders and
    with no number written as an integer, the run on the JSON file and the
    run on the YAML file end the same way with the same output, subtree
    path, delimiters and strictness being what they may. *)
Theorem json_and_yaml_runs_agree :
  forall (os : World) (g : Flags) (pj py : string) (fj fy : File) (d : Doc),
    pj <> "" -> py <> "" ->
    Open os pj = Some fj -> json fj = Some d ->
    Open os py = Some fy -> yaml fy = Some d ->
    yamlValue d <> None ->
    integerFree d ->
    main os (useJSON g pj) = main os (useYAML g py).
Proof.
  intros os g pj py fj fy d Hpj Hpy Hoj Hj Hoy Hy Hvalid Hfree.
  assert (Hsame : parseJSON os pj = parseYAML os py).
  { unfold parseJSON, parseYAML. rewrite Hoj, Hj, Hoy, Hy. cbn [mbind option_bind].
    destruct (yamlValue d) as [v|] eqn:E; [|congruence].
    now rewrite (yamlValue_jsonValue d v Hfree E). }
  unfold main, parseArgs, readData.
  cbn [versionFlag helpFlag jsonDataFile yamlDataFile envFlag subtree useJSON useYAML].
  rewrite (isSet_true _ Hpj), (isSet_true _ Hpy), Hsame.
  cbn [isSet String.eqb negb countTrue Nat.add Nat.eqb].
  reflexivity.
Qed.

Lemma json_and_yaml_runs_agree_witness :
  main (documentWorld "{{ .first.key3 }}" basicDocument)
       (useJSON (setSubtree noFlags ".key2") "data.json")
  = main (documentWorld "{{ .first.key3 }}" basicDocument)
         (useYAML (setSubtree noFlags ".key2") "data.yaml").
Proof.
  eapply json_and_yaml_runs_agree.
  - discriminate.
  - discriminate.
  - reflexivity.
  - reflexivity.
  - reflexivity.
  - reflexivity.
  - discriminate.
  - simpl. tauto.
Defined.

(** X23. A data file that cannot be opened or decoded is reported as such
    when no subtree path, or one without [.], is given: the run ends with
    the error of the data file, whatever the template text and the
    delimiters are. *)
Theorem failed_data_file_is_reported :
  forall (os : World) (g : Flags) (tplStr : string) (err : error),
    parseArgs g = Continue tt ->
    readInput os g = Continue tplStr ->
    envFlag g = false ->
    snd (if isSet (jsonDataFile g) then parseJSON os (jsonDataFile g)
         else parseYAML os (yamlDataFile g)) = Some err ->
    CountByte (subtree g) "." = 0 ->
    main os g = Fatal [] (FatalDataFile err).
Proof.
  intros os g tplStr err Ha Hi He Herr Hdot.
  assert (Hd : readData os g = End (Fatal [] (FatalDataFile err))).
  { unfold readData.
    apply parseArgs_selects in Ha
      as [(Hj & _) | [(Hj & Hy & _) | (_ & _ & H)]]; [| |congruence].
    - rewrite (isSet_true _ Hj) in *.
      destruct (parseJSON os (jsonDataFile g)) as [data e]. cbn [snd] in Herr. subst e.
      unfold getSubTree. rewrite (pathSegments_no_dot _ Hdot).
      now destruct (isSet (subtree g)).
    - rewrite Hj in *. cbn [isSet String.eqb negb] in *. rewrite (isSet_true _ Hy).
      destruct (parseYAML os (yamlDataFile g)) as [data e]. cbn [snd] in Herr. subst e.
      unfold getSubTree. rewrite (pathSegments_no_dot _ Hdot).
      now destruct (isSet (subtree g)). }
  unfold main. now rewrite Ha, Hi, Hd.
Qed.

Lemma failed_data_file_is_reported_witness :
  main (process "{{ .first" []) (setDelimiters jsonFlags "::")
  = Fatal [] (FatalDataFile (ErrOpen "data.json")).
Proof.
  apply (failed_data_file_is_reported _ _ "{{ .first"); reflexivity.
Defined.
